(** * Verification of the WallStreet backtest engine and report parser

    A shallow embedding of [src/src/backtest_engine.py] (module
    [BacktestEngine]) and of the table parsers of [src/dashboard.py]
    (module [Dashboard]).

    Modelling choices, common to the whole development:
    - Python floats are modelled by exact rationals [Q]; [round(x, n)] is
      round-half-to-even at [n] decimals on the exact value.
    - A calendar date is its day ordinal (a [Z]), as [date.toordinal()]
      gives it; [(a - b).days] is the difference of ordinals.
    - Strings are Rocq [string]s (8-bit characters); upper-casing is the
      ASCII one.
    - Raised Python exceptions are the [inl] side of an error monad. *)

From Stdlib Require Import ZArith QArith Qround Qabs Qminmax List String Ascii Bool Lia Lqa.
Import ListNotations.

Open Scope string_scope.
Open Scope list_scope.
Open Scope Z_scope.

(** ** Numbers: Python's [round] on exact values *)

(** [round(y)] to an integer, ties to even. *)
Definition round_half_even_Z (y : Q) : Z :=
  let f := Qfloor y in
  match Qcompare (y - inject_Z f) (1 # 2) with
  | Lt => f
  | Gt => f + 1
  | Eq => if Z.even f then f else f + 1
  end.

(** [round(x, nd)]. *)
Definition py_round (nd : nat) (x : Q) : Q :=
  let s := inject_Z (10 ^ Z.of_nat nd) in
  (inject_Z (round_half_even_Z (x * s)) / s)%Q.

Definition Qlt_bool (a b : Q) : bool := negb (Qle_bool b a).

(** Python's [sum(xs)]: a left fold starting at [0]. *)
Definition py_sum (xs : list Q) : Q := fold_left Qplus xs 0%Q.

(** [str.upper()] on ASCII letters. *)
Definition py_upper_char (ch : ascii) : ascii :=
  let n := nat_of_ascii ch in
  if (97 <=? n)%nat && (n <=? 122)%nat then ascii_of_nat (n - 32) else ch.

Fixpoint py_upper (s : string) : string :=
  match s with
  | EmptyString => EmptyString
  | String ch r => String (py_upper_char ch) (py_upper r)
  end.

Module BacktestEngine.

(** ** Configuration constants *)

Definition HOLD_DAYS : Z := 21.
Definition MIN_AGE_DAYS : Z := 5.
Definition BUY_ACTIONS : list string := ["BUY"; "EXPLOSIVE BUY"; "GOLDEN TRADE"].

(** ** Data *)

(** One entry of [logs/history.json]. [action] and [price] are read with
    [e.get(...)], so they may be absent; [date] is the ordinal that
    [datetime.strptime(e["date"], "%Y-%m-%d").date()] yields. *)
Record Entry := mkEntry {
  e_ticker : string;
  e_date : Z;
  e_action : option string;
  e_price : option Q;
}.

(** A trade dict appended to [trades]. The ["date"] key copies
    [entry["date"]], represented by the same ordinal. *)
Record Trade := mkTrade {
  ticker : string;
  date : Z;
  action : string;
  entry_price : Q;
  exit_price : Q;
  exit_date : Z;
  pct_return : Q;
  spy_return : option Q;
  won : bool;
}.

(** The result dict written to [logs/backtest_results.json]. *)
Record Summary := mkSummary {
  generated_at : Z;
  data_points : nat;
  win_rate : option Q;
  profit_factor : option Q;
  alpha_vs_spy : option Q;
  avg_return : option Q;
  trades : list Trade;
}.

(** ** The price provider *)

(** A request [/v2/aggs/ticker/{ticker}/range/1/day/{from}/{to}]. *)
Record Request := mkRequest {
  rq_ticker : string;
  rq_from : Z;
  rq_to : Z;
}.

(** A daily bar: only its close ["c"] is read. *)
Record Bar := mkBar { c : Q }.

(** The JSON body of an aggregates response: its ["results"] list, when
    present. *)
Record AggsBody := mkAggsBody { results : option (list Bar) }.

(** What [requests.get] yields: a transport error ([RequestException]), or a
    response with its status code and its decoded JSON body ([None] when
    the body is JSON [null], or not JSON at all: [resp.json()] then raises
    [requests.JSONDecodeError], a [RequestException]). *)
Inductive Response :=
| TransportError
| Http (status : Z) (body : option AggsBody).

(** ** Effects: requests sent, the results file, raised exceptions *)

Record World := mkWorld {
  sent : list Request;
  results_file : option Summary;
}.

Inductive exn :=
| ZeroDivisionError
| SystemExit (code : Z).

Definition M (A : Type) : Type := World -> (exn + A) * World.

Definition ret {A} (a : A) : M A := fun w => (inr a, w).
Definition raise {A} (e : exn) : M A := fun w => (inl e, w).
Definition bind {A B} (m : M A) (k : A -> M B) : M B :=
  fun w => match m w with
           | (inl e, w') => (inl e, w')
           | (inr a, w') => k a w'
           end.

Notation "x <- m ;; k" := (bind m (fun x => k))
  (at level 61, m at next level, right associativity).

(** Float division [x / y]: raises [ZeroDivisionError] when [y == 0]. *)
Definition py_div (x y : Q) : M Q :=
  if Qeq_bool y 0 then raise ZeroDivisionError else ret (x / y)%Q.

Definition write_results (s : Summary) : M unit :=
  fun w => (inr tt, mkWorld (sent w) (Some s)).

Section Pipeline.

(** [POLYGON_API_KEY] as read from the environment, and the provider's
    answer to each request. *)
Variable POLYGON_KEY : string.
Variable provider : Request -> Response.

Definition send (rq : Request) : M Response :=
  fun w => (inr (provider rq), mkWorld (sent w ++ [rq]) (results_file w)).

(** [_polygon_get]: the request is only sent when the key is non-empty. *)
Definition polygon_get (rq : Request) : M (option AggsBody) :=
  if String.eqb POLYGON_KEY "" then ret None
  else resp <- send rq ;;
       ret (match resp with
            | Http status body => if status =? 200 then body else None
            | TransportError => None
            end).

(** [fetch_close]: the first close of a 10-day forward window. *)
Definition fetch_close (ticker : string) (target_date : Z) : M (option Q) :=
  let window_end := target_date + 10 in
  data <- polygon_get (mkRequest ticker target_date window_end) ;;
  ret (match data with
       | Some (mkAggsBody (Some (b :: _))) => Some (c b)
       | _ => None
       end).

(** [trading_days_after]: [signal_date + round(n * 7 / 5)] days. *)
Definition trading_days_after (signal_date n : Z) : Z :=
  signal_date + round_half_even_Z (inject_Z (n * 7) / inject_Z 5).

Definition in_BUY_ACTIONS (a : string) : bool :=
  existsb (String.eqb a) BUY_ACTIONS.

(** The filter of the [eligible] comprehension. *)
Definition is_eligible (today : Z) (e : Entry) : bool :=
  in_BUY_ACTIONS (py_upper (match e_action e with Some a => a | None => "" end))
  && (MIN_AGE_DAYS <=? today - e_date e)
  && Qlt_bool 0 (match e_price e with Some p => p | None => 0%Q end).

(** Python truthiness of an optional float: [None] and [0.0] are false. *)
Definition truthy (x : option Q) : bool :=
  match x with Some v => negb (Qeq_bool v 0) | None => false end.

(** One iteration of [for entry in eligible]; the accumulator is the pair
    [(trades, spy_returns)]. *)
Definition process_entry (today : Z) (entry : Entry)
    (acc : list Trade * list Q) : M (list Trade * list Q) :=
  let '(trades, spy_returns) := acc in
  let ticker := e_ticker entry in
  let signal_date := e_date entry in
  (* float(entry["price"]): present, since the entry is eligible *)
  let entry_price := match e_price entry with Some p => p | None => 0%Q end in
  let exit_date := trading_days_after signal_date HOLD_DAYS in
  if today <=? exit_date then ret acc
  else
    exit_price_opt <- fetch_close ticker exit_date ;;
    match exit_price_opt with
    | None => ret acc
    | Some exit_price =>
        q <- py_div (exit_price - entry_price) entry_price ;;
        let pct_return := (q * 100)%Q in
        let won := Qlt_bool 0 pct_return in
        spy_entry <- fetch_close "SPY" signal_date ;;
        spy_exit <- fetch_close "SPY" exit_date ;;
        spy_return <-
          (if truthy spy_entry && truthy spy_exit then
             match spy_entry, spy_exit with
             | Some se, Some sx => r <- py_div (sx - se) se ;; ret (Some (r * 100)%Q)
             | _, _ => ret None
             end
           else ret None) ;;
        let spy_returns' :=
          match spy_return with Some r => spy_returns ++ [r] | None => spy_returns end in
        ret (trades ++
               [mkTrade ticker signal_date
                  (match e_action entry with Some a => a | None => "" end)
                  (py_round 2 entry_price) (py_round 2 exit_price) exit_date
                  (py_round 2 pct_return)
                  (match spy_return with Some r => Some (py_round 2 r) | None => None end)
                  won],
             spy_returns')
    end.

Fixpoint backtest_loop (today : Z) (es : list Entry)
    (acc : list Trade * list Q) : M (list Trade * list Q) :=
  match es with
  | [] => ret acc
  | e :: es' => acc' <- process_entry today e acc ;; backtest_loop today es' acc'
  end.

(** The metrics block (and the early return of the empty case). *)
Definition summarize (today : Z) (trades : list Trade) (spy_returns : list Q)
    : M Summary :=
  match trades with
  | [] => ret (mkSummary today 0 None None None None [])
  | _ :: _ =>
      let wins := filter won trades in
      let losses := filter (fun t => negb (won t)) trades in
      wr <- py_div (inject_Z (Z.of_nat (List.length wins)))
                   (inject_Z (Z.of_nat (List.length trades))) ;;
      let win_rate := py_round 1 (wr * 100)%Q in
      ar <- py_div (py_sum (map pct_return trades))
                   (inject_Z (Z.of_nat (List.length trades))) ;;
      let avg_return := py_round 2 ar in
      let gross_gain := py_sum (map pct_return wins) in
      let gross_loss := Qabs (py_sum (map pct_return losses)) in
      profit_factor <-
        (if Qlt_bool 0 gross_loss then
           pf <- py_div gross_gain gross_loss ;; ret (Some (py_round 2 pf))
         else ret None) ;;
      avg_spy <-
        (match spy_returns with
         | [] => ret None
         | _ :: _ =>
             a <- py_div (py_sum spy_returns) (inject_Z (Z.of_nat (List.length spy_returns))) ;;
             ret (Some (py_round 2 a))
         end) ;;
      let alpha :=
        match avg_spy with Some s => Some (py_round 2 (avg_return - s)) | None => None end in
      ret (mkSummary today (List.length trades) (Some win_rate) profit_factor alpha
                     (Some avg_return) trades)
  end.

(** [run_backtest]: [history_file] is the parsed [logs/history.json]
    ([None] when the file does not exist). *)
Definition run_backtest (history_file : option (list Entry)) (today : Z) : M Summary :=
  match history_file with
  | None => raise (SystemExit 1)
  | Some history =>
      let eligible := filter (is_eligible today) history in
      acc <- backtest_loop today eligible ([], []) ;;
      let '(trades, spy_returns) := acc in
      result <- summarize today trades spy_returns ;;
      _ <- write_results result ;;
      ret result
  end.

End Pipeline.

End BacktestEngine.

(** ** The table parsers of [dashboard.py] *)

Module Dashboard.

(** [str.isspace()] for the characters below 256. *)
Definition is_space (ch : ascii) : bool :=
  let n := nat_of_ascii ch in
  ((9 <=? n) && (n <=? 13))%nat || ((28 <=? n) && (n <=? 32))%nat ||
  (n =? 133)%nat || (n =? 160)%nat.

(** [\d] for the characters below 256. *)
Definition is_digit (ch : ascii) : bool :=
  let n := nat_of_ascii ch in ((48 <=? n) && (n <=? 57))%nat.

Definition digit_value (ch : ascii) : Z := Z.of_nat (nat_of_ascii ch - 48).

Fixpoint lstrip_by (p : ascii -> bool) (s : string) : string :=
  match s with
  | EmptyString => EmptyString
  | String ch r => if p ch then lstrip_by p r else s
  end.

Fixpoint rstrip_by (p : ascii -> bool) (s : string) : string :=
  match s with
  | EmptyString => EmptyString
  | String ch r =>
      match rstrip_by p r with
      | EmptyString => if p ch then EmptyString else String ch EmptyString
      | r' => String ch r'
      end
  end.

(** [s.strip()] and [s.strip("|")]. *)
Definition py_strip (s : string) : string := rstrip_by is_space (lstrip_by is_space s).
Definition strip_bars (s : string) : string :=
  rstrip_by (Ascii.eqb "|"%char) (lstrip_by (Ascii.eqb "|"%char) s).

(** [s.split("|")]. *)
Fixpoint split_bar (s : string) : list string :=
  match s with
  | EmptyString => [EmptyString]
  | String ch r =>
      if Ascii.eqb ch "|"%char then EmptyString :: split_bar r
      else match split_bar r with
           | h :: t => String ch h :: t
           | [] => [String ch EmptyString]
           end
  end.

Fixpoint is_prefix (p s : string) : bool :=
  match p, s with
  | EmptyString, _ => true
  | String a p', String b s' => Ascii.eqb a b && is_prefix p' s'
  | String _ _, EmptyString => false
  end.

(** [p in s]. *)
Fixpoint contains (p s : string) : bool :=
  is_prefix p s || match s with EmptyString => false | String _ s' => contains p s' end.

Definition startswith_bar (s : string) : bool := is_prefix "|" s.

(** [re.match(r"^\|\s*-+", line)]. *)
Definition is_separator (line : string) : bool :=
  match line with
  | String ch r => Ascii.eqb ch "|"%char && is_prefix "-" (lstrip_by is_space r)
  | EmptyString => false
  end.

(** [re.sub(pattern, "", s)] for a one-character class. *)
Fixpoint filter_chars (p : ascii -> bool) (s : string) : string :=
  match s with
  | EmptyString => EmptyString
  | String ch r => if p ch then String ch (filter_chars p r) else filter_chars p r
  end.

Fixpoint digits_value (acc : Z) (s : string) : option Z :=
  match s with
  | EmptyString => Some acc
  | String ch r => if is_digit ch then digits_value (acc * 10 + digit_value ch) r else None
  end.

(** [int(s)] on strings over digits and signs (the only strings it is
    called on here; they hold no whitespace and no underscore): an optional
    sign, then one or more digits; [None] is the [ValueError]. *)
Definition py_int (s : string) : option Z :=
  let '(neg, body) :=
    match s with
    | String ch r =>
        if Ascii.eqb ch "-"%char then (true, r)
        else if Ascii.eqb ch "+"%char then (false, r) else (false, s)
    | EmptyString => (false, s)
    end in
  match body with
  | EmptyString => None
  | _ => match digits_value 0 body with
         | Some v => Some (if neg then - v else v)
         | None => None
         end
  end.

Fixpoint take_digits (acc : Z) (n : nat) (s : string) : Z * nat * string :=
  match s with
  | String ch r =>
      if is_digit ch then take_digits (acc * 10 + digit_value ch) (S n) r else (acc, n, s)
  | EmptyString => (acc, n, EmptyString)
  end.

(** [float(s)] on strings over digits, dots and a leading sign (the only
    strings the pattern [([+-]?[\d.]+)%] captures): an optional sign, digits
    with at most one dot, and at least one digit; [None] is the
    [ValueError]. *)
Definition py_float (s : string) : option Q :=
  let '(neg, body) :=
    match s with
    | String ch r =>
        if Ascii.eqb ch "-"%char then (true, r)
        else if Ascii.eqb ch "+"%char then (false, r) else (false, s)
    | EmptyString => (false, s)
    end in
  let '(ip, n1, rest) := take_digits 0 0 body in
  let '(fp, n2, rest') :=
    match rest with
    | String ch r => if Ascii.eqb ch "."%char then take_digits 0 0 r else (0, 0%nat, rest)
    | EmptyString => (0, 0%nat, EmptyString)
    end in
  match rest' with
  | EmptyString =>
      if (n1 + n2 =? 0)%nat then None
      else
        let v := (inject_Z ip + inject_Z fp / inject_Z (10 ^ Z.of_nat n2))%Q in
        Some (if neg then (- v)%Q else v)
  | _ => None
  end.

(** The longest prefix over [[\d.]], and the rest. *)
Fixpoint span_num (s : string) : string * string :=
  match s with
  | String ch r =>
      if is_digit ch || Ascii.eqb ch "."%char then
        let '(a, b) := span_num r in (String ch a, b)
      else (EmptyString, s)
  | EmptyString => (EmptyString, EmptyString)
  end.

(** [[\d.]+%] at the start of [s]: the greedy run must be followed by [%]
    (a shorter run is followed by a digit or a dot, so backtracking never
    helps). *)
Definition pct_body_at (s : string) : option string :=
  let '(run, rest) := span_num s in
  match run, rest with
  | String _ _, String ch _ => if Ascii.eqb ch "%"%char then Some run else None
  | _, _ => None
  end.

(** [([+-]?[\d.]+)%] at the start of [s]: group 1. *)
Definition pct_match_at (s : string) : option string :=
  match s with
  | String ch r =>
      if Ascii.eqb ch "+"%char || Ascii.eqb ch "-"%char then
        match pct_body_at r with
        | Some g => Some (String ch g)
        | None => pct_body_at s
        end
      else pct_body_at s
  | EmptyString => None
  end.

(** [re.search(r"([+-]?[\d.]+)%", s)]: the leftmost match's group 1. *)
Fixpoint re_search_pct (s : string) : option string :=
  match pct_match_at s with
  | Some g => Some g
  | None => match s with EmptyString => None | String _ r => re_search_pct r end
  end.

(** The score cell: [score_raw = re.sub(r"[^\d\-]", "", cell)], then
    [int(score_raw) if score_raw else 0]. *)
Definition parse_score (cell : string) : option Z :=
  let score_raw := filter_chars (fun ch => is_digit ch || Ascii.eqb ch "-"%char) cell in
  match score_raw with
  | EmptyString => Some 0
  | _ => py_int score_raw
  end.

(** The return cell: [float(pct_raw.group(1)) if pct_raw else 0.0]. *)
Definition parse_pct (cell : string) : option Q :=
  match re_search_pct cell with
  | Some g => py_float g
  | None => Some 0%Q
  end.

(** [[c.strip() for c in line.strip("|").split("|")]]. *)
Definition row_cells (line : string) : list string :=
  map py_strip (split_bar (strip_bars line)).

Section Table.
(** The table loop shared by [parse_opportunities] and [parse_performance]:
    how a header is recognised, the minimum cell count, and the row dict
    built from the cells ([None] when building it raises). *)
Variable R : Type.
Variable is_header : string -> bool.
Variable min_cells : nat.
Variable make_row : list string -> option R.

(** One line of [for line in text.splitlines()]: the next [in_table] and
    what the line yields (nothing, a raised exception [Some None], or a
    row). *)
Definition scan_line (in_table : bool) (raw : string) : bool * option (option R) :=
  let line := py_strip raw in
  if is_header line then (true, None)
  else if negb in_table then (false, None)
  else if is_separator line then (true, None)
  else if negb (startswith_bar line) then (false, None)
  else
    let cells := row_cells line in
    if (List.length cells <? min_cells)%nat then (true, None)
    else (true, Some (make_row cells)).

Fixpoint scan_rows (in_table : bool) (lines : list string) : option (list R) :=
  match lines with
  | [] => Some []
  | raw :: rest =>
      let '(st, out) := scan_line in_table raw in
      match out with
      | None => scan_rows st rest
      | Some None => None
      | Some (Some row) =>
          match scan_rows st rest with
          | Some rows => Some (row :: rows)
          | None => None
          end
      end
  end.

(** The value of [in_table] after some lines. *)
Fixpoint table_state (in_table : bool) (lines : list string) : bool :=
  match lines with
  | [] => in_table
  | raw :: rest => table_state (fst (scan_line in_table raw)) rest
  end.

End Table.

Arguments scan_line {R}.
Arguments scan_rows {R}.
Arguments table_state {R}.

Record OpportunityRow := mkOpportunityRow {
  Ticker : string;
  Action : string;
  Score : Z;
  Sector_ETF : string;
  Certainty : string;
  EPS_Surprise : string;
  RS_1d : string;
  Stop_Loss : string;
}.

Definition make_opportunity (cells : list string) : option OpportunityRow :=
  match parse_score (nth 3 cells "") with
  | None => None
  | Some score =>
      Some (mkOpportunityRow (nth 0 cells "")
              (py_strip (filter_chars (fun ch => negb (Ascii.eqb ch "*"%char)) (nth 2 cells "")))
              score (nth 1 cells "") (nth 4 cells "") (nth 5 cells "") (nth 6 cells "")
              (nth 9 cells ""))
  end.

Definition opportunity_header (line : string) : bool :=
  contains "| Ticker |" line && contains "Sector ETF" line.

(** The [rows] of [parse_opportunities], from [text.splitlines()]. *)
Definition opportunity_rows (lines : list string) : option (list OpportunityRow) :=
  scan_rows opportunity_header 10 make_opportunity false lines.

Record PerformanceRow := mkPerformanceRow {
  ticker : string;
  date : string;
  action : string;
  pct_change : Q;
  win : bool;
}.

Definition make_performance (cells : list string) : option PerformanceRow :=
  match parse_pct (nth 6 cells "") with
  | None => None
  | Some pct =>
      Some (mkPerformanceRow (nth 0 cells "") (nth 1 cells "") (nth 2 cells "") pct
              (String.eqb (py_upper (py_strip (nth 7 cells ""))) "YES"))
  end.

Definition performance_header (line : string) : bool :=
  contains "| Ticker |" line && contains "Return %" line.

(** The [rows] of [parse_performance], from [text.splitlines()]. *)
Definition performance_rows (lines : list string) : option (list PerformanceRow) :=
  scan_rows performance_header 8 make_performance false lines.

End Dashboard.

(** ** The view helpers of [dashboard.py]

    Text literals outside Latin-1 (emoji, arrows, dashes) are written as
    their UTF-8 bytes, as the page receives them. *)

Module DashboardViews.
Import Dashboard.
Local Open Scope string_scope.

Definition PRIMARY : string := "#00ff00".
Definition RED : string := "#ff4444".
Definition GOLD : string := "#ffcc00".
Definition MUTED : string := "#555555".

(** [s.rstrip()]. *)
Definition py_rstrip (s : string) : string := rstrip_by is_space s.

(** [s.replace(old, new)] for a one-character [old]. *)
Fixpoint replace_char (old : ascii) (new s : string) : string :=
  match s with
  | EmptyString => EmptyString
  | String ch r =>
      if Ascii.eqb ch old then new ++ replace_char old new r
      else String ch (replace_char old new r)
  end.

(** [_colorize_log_line]. *)
Definition colorize_log_line (line : string) : string :=
  let line := py_rstrip line in
  let color :=
    if contains "[ERROR]" line then RED
    else if contains "[WARN]" line then GOLD
    else if contains "[INFO]" line then PRIMARY
    else MUTED in
  let escaped :=
    replace_char ">" "&gt;" (replace_char "<" "&lt;" (replace_char "&" "&amp;" line)) in
  "<span style='color:" ++ color ++ "'>" ++ escaped ++ "</span>".

(** [_pct_float]: [None] is the [ValueError] [float()] raises; [Some None]
    is the function's [None]. *)
Definition pct_float (raw : string) : option (option Q) :=
  match re_search_pct raw with
  | Some g => match py_float g with Some v => Some (Some v) | None => None end
  | None => Some None
  end.

(** [_action_badge]. *)
Definition action_badge (action : string) : string :=
  let a := py_upper action in
  if contains "GOLDEN" a || contains "EXPLOSIVE" a then
    "<span class='badge b-gold'>" ++ (if contains "GOLDEN" a then "🏆" else "🔥") ++ " "
      ++ action ++ "</span>"
  else if contains "BUY" a then "<span class='badge b-green'>▲ " ++ action ++ "</span>"
  else if contains "WATCH" a then "<span class='badge b-muted'>👁 " ++ action ++ "</span>"
  else if contains "SELL" a then "<span class='badge b-red'>▼ " ++ action ++ "</span>"
  else "<span class='badge b-muted'>" ++ action ++ "</span>".

(** A row of the [load_history] frame: [date] is the timestamp, in
    seconds, that [pd.to_datetime] gives the ["date"] string. *)
Record HistRow := mkHistRow {
  h_date : Z;
  h_ticker : string;
  h_action : string;
  h_score : Z;
  h_price : Q;
}.

(** [series.max()] and [series.min()] ([None] on an empty series). *)
Definition series_max (xs : list Z) : option Z :=
  match xs with [] => None | x :: r => Some (fold_left Z.max r x) end.
Definition series_min (xs : list Z) : option Z :=
  match xs with [] => None | x :: r => Some (fold_left Z.min r x) end.

(** [df[df["date"] == df["date"].max()]]. *)
Definition latest_rows (df : list HistRow) : list HistRow :=
  match series_max (map h_date df) with
  | Some m => filter (fun r => Z.eqb (h_date r) m) df
  | None => []
  end.

(** The x-axis range of [_score_bar]: [(x_min, x_max)]; [None] when the
    frame is empty ([int(NaN)] raises). Sorting [latest] by score does not
    change its minimum and maximum. *)
Definition score_axis_range (df : list HistRow) : option (Z * Z) :=
  let scores := map h_score (latest_rows df) in
  match series_min scores, series_max scores with
  | Some lo, Some hi => Some (Z.min (lo - 15) (-25), hi + 25)
  | _, _ => None
  end.

(** The sector tables, in their dict order. *)
Definition SECTOR_MAP : list (string * string) := [
  ("NVDA", "SMH"); ("AMD", "SMH"); ("ARM", "SMH"); ("SMCI", "SMH");
  ("PANW", "HACK"); ("CRWD", "HACK"); ("ZS", "HACK"); ("OKTA", "HACK"); ("FTNT", "HACK");
  ("SQ", "ARKF"); ("AFRM", "ARKF"); ("HOOD", "ARKF");
  ("COIN", "BITO");
  ("TSLA", "XLY"); ("LULU", "XLY"); ("DECK", "XLY"); ("ABNB", "XLY");
  ("UBER", "XLY"); ("DASH", "XLY"); ("RBLX", "XLY"); ("DUOL", "XLY");
  ("ONON", "XLY"); ("CELH", "XLY"); ("ELF", "XLY"); ("TOST", "XLY");
  ("AMZN", "XLY");
  ("NET", "SKYY"); ("DDOG", "SKYY"); ("SNOW", "SKYY"); ("MDB", "SKYY");
  ("ESTC", "SKYY"); ("CFLT", "SKYY"); ("IOT", "SKYY");
  ("AAPL", "XLK"); ("MSFT", "XLK"); ("ADSK", "XLK"); ("WDAY", "XLK");
  ("TEAM", "XLK"); ("HUBS", "XLK"); ("GDDY", "XLK"); ("BILL", "XLK");
  ("MNDY", "XLK"); ("SHOP", "XLK"); ("TTD", "XLK"); ("MELI", "XLK");
  ("APP", "XLK"); ("FICO", "XLK"); ("TW", "XLK"); ("AXON", "XLK");
  ("PLTR", "XLK"); ("MSTR", "XLK"); ("META", "XLK"); ("GOOGL", "XLK")].

Definition SECTOR_LABELS : list (string * string) := [
  ("SMH", "Semiconductors"); ("HACK", "Cybersecurity"); ("ARKF", "Fintech");
  ("BITO", "Crypto"); ("XLY", "Consumer Disc."); ("SKYY", "Cloud / Data");
  ("XLK", "Tech / Software"); ("SPY", "Other")].

Definition SECTOR_COLORS : list (string * string) := [
  ("SMH", "#00ff00"); ("XLK", "#00cc44"); ("XLY", "#00aaff"); ("SKYY", "#0066cc");
  ("HACK", "#cc44ff"); ("ARKF", "#ff8800"); ("BITO", "#ffcc00"); ("SPY", "#555555")].

(** [d.get(k, default)] on a dict with string keys. *)
Fixpoint dict_get {A} (d : list (string * A)) (k : string) (default : A) : A :=
  match d with
  | [] => default
  | (k', v) :: d' => if String.eqb k k' then v else dict_get d' k default
  end.

(** [d[k] = d.get(k, 0) + 1]: an existing key keeps its place, a new one
    is appended. *)
Fixpoint dict_incr (d : list (string * nat)) (k : string) : list (string * nat) :=
  match d with
  | [] => [(k, 1%nat)]
  | (k', n) :: d' => if String.eqb k k' then (k', S n) :: d' else (k', n) :: dict_incr d' k
  end.

(** [sector_counts] of [_sector_pie]. *)
Definition sector_counts (latest : list HistRow) : list (string * nat) :=
  fold_left (fun acc r => dict_incr acc (dict_get SECTOR_MAP (py_upper (h_ticker r)) "SPY"))
            latest [].

(** [_sector_pie]: the slices' labels, values and colours ([None] is the
    empty figure of an empty frame). *)
Definition sector_pie (df : list HistRow) : option (list string * list nat * list string) :=
  match df with
  | [] => None
  | _ :: _ =>
      let counts := sector_counts (latest_rows df) in
      Some (map (fun e => dict_get SECTOR_LABELS (fst e) (fst e)) counts,
            map snd counts,
            map (fun e => dict_get SECTOR_COLORS (fst e) MUTED) counts)
  end.

(** [max(...)] and [min(...)] over a list of floats ([None]: the
    [ValueError] of an empty list). *)
Definition qmax_list (xs : list Q) : option Q :=
  match xs with [] => None | x :: r => Some (fold_left Qmax r x) end.
Definition qmin_list (xs : list Q) : option Q :=
  match xs with [] => None | x :: r => Some (fold_left Qmin r x) end.

(** What [_returns_vs_spy] draws: nothing (an empty figure), a raised
    exception, or the bars of some rows with their values, the SPY line
    and the y-axis range. *)
Inductive Chart :=
| EmptyFigure
| Raised
| Bars (rows : list PerformanceRow) (ys : list Q) (spy : option Q) (y_min y_max : Q).

Section ReturnsChart.
(** [datetime.strptime(s, "%Y-%m-%d").date()] as an ordinal; [None] is
    its [ValueError]. *)
Variable parse_date : string -> option Z.

(** [rows_30d]: the rows dated on or after [cutoff], or all of them when
    none is. *)
Definition rows_last_30d (cutoff : Z) (perf_rows : list PerformanceRow) : list PerformanceRow :=
  match filter (fun r => match parse_date (date r) with
                         | Some d => Z.leb cutoff d
                         | None => false
                         end) perf_rows with
  | [] => perf_rows
  | rows => rows
  end.

(** [_returns_vs_spy] on the day [today] (UTC): the cutoff is 30 days
    earlier. *)
Definition returns_vs_spy (today : Z) (perf_rows : list PerformanceRow) (spy_return : option Q)
    : Chart :=
  match perf_rows with
  | [] => EmptyFigure
  | _ :: _ =>
      let rows_30d := rows_last_30d (today - 30) perf_rows in
      let returns := map pct_change rows_30d in
      let all_vals := app returns match spy_return with Some s => [s] | None => [] end in
      let y_pad :=
        match all_vals with
        | [] => Some 5%Q
        | _ :: _ => option_map (fun m => m * (18 # 100))%Q (qmax_list (map Qabs all_vals))
        end in
      match y_pad, qmin_list all_vals, qmax_list all_vals with
      | Some pad, Some lo, Some hi => Bars rows_30d returns spy_return (lo - pad)%Q (hi + pad * 2)%Q
      | _, _, _ => Raised
      end
  end.

End ReturnsChart.

(** The row filter of [_signals_table] ([r.get(...)] finds the keys: every
    row carries them). *)
Definition signals_filter (query : string) (rows : list OpportunityRow) : list OpportunityRow :=
  match query with
  | EmptyString => rows
  | String _ _ =>
      let q := py_upper query in
      filter (fun r => contains q (py_upper (Ticker r)) || contains q (py_upper (Action r))) rows
  end.

(** [matched] in [main], the count shown beside the search box. *)
Definition matched_count (query : string) (rows : list OpportunityRow) : nat :=
  List.length (filter (fun r => String.eqb query "" ||
                                contains (py_upper query) (py_upper (Ticker r)) ||
                                contains (py_upper query) (py_upper (Action r))) rows).

(** [str(n)] for an integer. *)
Fixpoint str_digits (fuel : nat) (n : Z) (acc : string) : string :=
  match fuel with
  | O => acc
  | S f =>
      let acc' := String (ascii_of_nat (48 + Z.to_nat (n mod 10))) acc in
      if Z.eqb (n / 10) 0 then acc' else str_digits f (n / 10) acc'
  end.

Definition py_str_Z (n : Z) : string :=
  if Z.ltb n 0 then "-" ++ str_digits (S (Pos.size_nat (Z.to_pos (- n)))) (- n) ""
  else str_digits (S (Pos.size_nat (Z.to_pos n))) n "".

(** [text[:n]]. *)
Definition py_prefix (n : nat) (s : string) : string := substring 0 n s.

Definition WORKFLOW_FILE : string := "main_scanner.yml".
Definition REPO : string := "liavgold/wall-street".

(** A [requests.post] call: its URL, headers and JSON body's ["ref"]. *)
Record PostRequest := mkPost {
  p_url : string;
  p_headers : list (string * string);
  p_ref : string;
}.

(** [_trigger_workflow]: [gh_token] is [st.secrets["GH_TOKEN"]] ([None]:
    the [KeyError]); [post] answers a request with its status code and
    text, or [None] when [requests.post] raises (not caught). The result
    is [None] when the function raises, and the requests posted. *)
Definition trigger_workflow (gh_token : option string)
    (post : PostRequest -> option (Z * string)) : option (bool * string) * list PostRequest :=
  match gh_token with
  | None =>
      (Some (false, "GitHub secrets not configured. Add GH_TOKEN to .streamlit/secrets.toml."), [])
  | Some token =>
      let url := "https://api.github.com/repos/" ++ REPO ++ "/actions/workflows/"
                   ++ WORKFLOW_FILE ++ "/dispatches" in
      let rq := mkPost url [("Authorization", "Bearer " ++ token);
                            ("Accept", "application/vnd.github+json");
                            ("X-GitHub-Api-Version", "2022-11-28")] "main" in
      (match post rq with
       | None => None
       | Some (status_code, text) =>
           Some (if Z.eqb status_code 204 then (true, "Scan initiated! Check Telegram in 2-3 minutes.")
                 else if Z.eqb status_code 401 then (false, "Authentication failed — check your GH_TOKEN.")
                 else if Z.eqb status_code 404 then
                   (false, "Workflow not found — verify repo '" ++ REPO ++ "' and workflow '"
                             ++ WORKFLOW_FILE ++ "'.")
                 else (false, "GitHub API error " ++ py_str_Z status_code ++ ": "
                                ++ py_prefix 200 text))
       end, [rq])
  end.

(** [fetch_spy_return_30d]: [chart_closes] is
    [data["chart"]["result"][0]["indicators"]["quote"][0]["close"]], or
    [None] when the request, the JSON decoding or that lookup raises; every
    exception of the [try] block ends in [return None]. *)
Definition fetch_spy_return_30d (chart_closes : option (list (option Q))) : option Q :=
  match chart_closes with
  | None => None
  | Some raw =>
      let closes := flat_map (fun x => match x with Some v => [v] | None => [] end) raw in
      if (2 <=? List.length closes)%nat then
        match closes with
        | first :: _ =>
            if Qeq_bool first 0 then None  (* ZeroDivisionError, caught *)
            else Some (py_round 2 ((last closes 0 - first) / first * 100))%Q
        | [] => None
        end
      else None
  end.

Section BotStatus.
(** [datetime.strptime(s, "%Y-%m-%d")] as a UTC timestamp in seconds;
    [None] is its [ValueError]. *)
Variable parse_scan_date : string -> option Z.

(** [_bot_status] at the instant [now]: [opp_empty] is [not opp] and
    [scan_date] is [opp.get("scan_date")]. A datetime is always truthy, so
    [max(last_dt, parsed) if last_dt else parsed] is [max] once [last_dt]
    is set. *)
Definition bot_status (now : Z) (df : list HistRow) (opp_empty : bool)
    (scan_date : option string) : string * string :=
  if match df with [] => true | _ => false end && opp_empty then ("OFFLINE", "status-offline")
  else
    let last_dt0 := series_max (map h_date df) in
    let last_dt :=
      match scan_date with
      | Some sd =>
          if String.eqb sd "" then last_dt0
          else match parse_scan_date sd with
               | Some parsed =>
                   Some (match last_dt0 with Some l => Z.max l parsed | None => parsed end)
               | None => last_dt0
               end
      | None => last_dt0
      end in
    match last_dt with
    | None => ("OFFLINE", "status-offline")
    | Some l =>
        let age_hours := (inject_Z (now - l) / 3600)%Q in
        if Qlt_bool age_hours 25 then ("ACTIVE", "status-active")
        else if Qlt_bool age_hours 168 then ("IDLE", "status-idle")
        else ("OFFLINE", "status-offline")
    end.

End BotStatus.

End DashboardViews.

(** ** Specification vocabulary *)

Module Specs.
Import BacktestEngine.

(** A computation that never raises, and whose result satisfies [P]. *)
Definition hoare {A} (P : A -> Prop) (m : M A) : Prop :=
  forall w, match fst (m w) with inr a => P a | inl _ => False end.

(** The result does not depend on the world the computation starts in. *)
Definition indep {A} (m : M A) : Prop :=
  forall w1 w2, fst (m w1) = fst (m w2).

(** The computation only appends requests, at most [n] of them, each
    satisfying [P], and leaves the results file alone. *)
Definition sends {A} (P : Request -> Prop) (n : nat) (m : M A) : Prop :=
  forall w, exists added,
    sent (snd (m w)) = sent w ++ added /\ (List.length added <= n)%nat /\
    Forall P added /\ results_file (snd (m w)) = results_file w.

(** The request [fetch_close] builds for a ticker and a date. *)
Definition window_request (tk : string) (d : Z) : Request := mkRequest tk d (d + 10).

(** The close the provider resolves for a ticker and date (the result of
    [fetch_close] does not depend on the world, see [indep_fetch]). *)
Definition resolved_close (POLYGON_KEY : string) (provider : Request -> Response)
    (tk : string) (d : Z) : option Q :=
  match fst (fetch_close POLYGON_KEY provider tk d (mkWorld [] None)) with inr r => r | inl _ => None end.

(** A losing trade has a non-positive (rounded) return. *)
Definition trade_ok (t : Trade) : Prop := won t = false -> (pct_return t <= 0)%Q.

(** [gross_loss] of the metrics block, as a function of the trades. *)
Definition gross_loss_of (tr : list Trade) : Q :=
  Qabs (py_sum (map pct_return (filter (fun t => negb (won t)) tr))).

Definition summary_ok (today : Z) (tr : list Trade) (s : Summary) : Prop :=
  generated_at s = today /\ data_points s = List.length tr /\ trades s = tr /\
  (tr = [] -> win_rate s = None /\ profit_factor s = None /\
              alpha_vs_spy s = None /\ avg_return s = None) /\
  (tr <> [] -> win_rate s <> None /\ avg_return s <> None) /\
  (profit_factor s = None <-> tr = [] \/ ~ (0 < gross_loss_of tr)%Q).

(** The benchmark return the loop body computes from the two SPY closes. *)
Definition spy_return_of (se sx : option Q) : option Q :=
  if truthy se && truthy sx then
    match se, sx with
    | Some a, Some b => Some ((b - a) / a * 100)%Q
    | _, _ => None
    end
  else None.

(** The requests one signal can cause. *)
Definition signal_request (e : Entry) (rq : Request) : Prop :=
  let exit := trading_days_after (e_date e) HOLD_DAYS in
  rq = window_request (e_ticker e) exit \/
  rq = window_request "SPY" (e_date e) \/
  rq = window_request "SPY" exit.

End Specs.

(** ** Concrete scenarios *)

Module Scenarios.
Import BacktestEngine.

Definition w0 : World := mkWorld [] None.

(** A provider whose every bar closes at [v]. *)
Definition flat_provider (v : Q) : Request -> Response :=
  fun _ => Http 200 (Some (mkAggsBody (Some [mkBar v]))).

(** A BUY signal logged on day 1000 at price [p]; the runs are on day 2000. *)
Definition buy_at (p : Q) : Entry := mkEntry "AAPL" 1000 (Some "BUY") (Some p).

Definition run_on (v p : Q) : (exn + Summary) * World :=
  run_backtest "key" (flat_provider v) (Some [buy_at p]) 2000 w0.

(** The summary of [run_on v p] (an empty one, should the run raise). *)
Definition summary_on (v p : Q) : Summary :=
  match fst (run_on v p) with
  | inr s => s
  | inl _ => mkSummary 0 0 None None None None []
  end.

End Scenarios.

(** ** Vocabulary for the further properties *)

Module ExtraSpecs.
Import BacktestEngine.

(** A trade built from the history entry [e] when the run is on [today]:
    ticker, date and action copied; exit 29 days later and before today;
    prices and return rounded to two decimals, [won] on the unrounded
    return. *)
Definition trade_from (today : Z) (e : Entry) (t : Trade) : Prop :=
  ticker t = e_ticker e /\ date t = e_date e /\
  action t = match e_action e with Some a => a | None => "" end /\
  exit_date t = e_date e + 29 /\ exit_date t < today /\
  (exists p, e_price e = Some p /\ entry_price t = py_round 2 p) /\
  (exists x, pct_return t = py_round 2 x /\ (won t = true <-> (0 < x)%Q)).

Definition has_spy (t : Trade) : bool :=
  match spy_return t with Some _ => true | None => false end.

(** Decoding of the three entities [_colorize_log_line] writes. *)
Fixpoint html_unescape (s : string) : string :=
  match s with
  | String "&" (String "l" (String "t" (String ";" r))) => String "<" (html_unescape r)
  | String "&" (String "g" (String "t" (String ";" r))) => String ">" (html_unescape r)
  | String "&" (String "a" (String "m" (String "p" (String ";" r)))) =>
      String "&" (html_unescape r)
  | String ch r => String ch (html_unescape r)
  | EmptyString => EmptyString
  end.

Fixpoint all_digits (s : string) : bool :=
  match s with
  | EmptyString => true
  | String ch r => Dashboard.is_digit ch && all_digits r
  end.

(** The value of a string of decimal digits. *)
Fixpoint decimal_value_acc (acc : Z) (s : string) : Z :=
  match s with
  | EmptyString => acc
  | String ch r => decimal_value_acc (acc * 10 + Dashboard.digit_value ch) r
  end.

Definition decimal_value (s : string) : Z := decimal_value_acc 0 s.

(** The sector keys [_sector_pie] can count: the values of [SECTOR_MAP]
    and its default. *)
Definition sector_keys : list string := "SPY" :: map snd DashboardViews.SECTOR_MAP.

(** The last two steps of [_bot_status]: folding the scan date into the
    latest timestamp, and the label of a timestamp. *)
Definition scan_update (parse_scan_date : string -> option Z) (scan_date : option string)
    (last_dt0 : option Z) : option Z :=
  match scan_date with
  | Some sd =>
      if String.eqb sd "" then last_dt0
      else match parse_scan_date sd with
           | Some parsed => Some (match last_dt0 with Some l => Z.max l parsed | None => parsed end)
           | None => last_dt0
           end
  | None => last_dt0
  end.

Definition status_at (now : Z) (last_dt : option Z) : string * string :=
  match last_dt with
  | None => ("OFFLINE", "status-offline")
  | Some l =>
      let age_hours := (inject_Z (now - l) / 3600)%Q in
      if Qlt_bool age_hours 25 then ("ACTIVE", "status-active")
      else if Qlt_bool age_hours 168 then ("IDLE", "status-idle")
      else ("OFFLINE", "status-offline")
  end.

(** Optional timestamps ordered with [None] below every timestamp. *)
Definition le_opt (a b : option Z) : Prop :=
  match a, b with
  | None, _ => True
  | Some x, Some y => (x <= y)%Z
  | Some _, None => False
  end.

(** A cell as the table parsers leave it: no [|] in it, and already
    stripped. *)
Definition clean_cell (s : string) : Prop :=
  Dashboard.contains "|" s = false /\ Dashboard.py_strip s = s.

(** Report lines with an opportunity table of one row. *)
Definition sample_opportunity_lines : list string :=
  ["| Ticker | Sector ETF | Action | Score | Certainty | EPS | RS (1d) | A | B | Stop-Loss |";
   "|---|---|";
   "| NVDA | SMH | **BUY** | 85 | High | +5% | 1.2 | x | y | 95.0 |"].

(** Report lines with a results table of one row. *)
Definition sample_performance_lines : list string :=
  ["| Ticker | Date | Action | Score | Entry Price | Current Price | Return % | Win? |";
   "|---|";
   "| AAPL | 2026-01-02 | BUY | 80 | 100 | 110 | +10% | YES |"].

(** How stale a [_bot_status] label is. *)
Definition status_rank (st : string * string) : nat :=
  if String.eqb (fst st) "ACTIVE" then 0 else if String.eqb (fst st) "IDLE" then 1 else 2.

End ExtraSpecs.

(** ** Reasoning about the monad *)

Module BacktestFacts.
Import BacktestEngine Specs.

Lemma hoare_ret {A} (P : A -> Prop) a : P a -> hoare P (ret a).
Proof. intros H w; exact H. Qed.

Lemma hoare_bind {A B} (Q : A -> Prop) (P : B -> Prop) m (k : A -> M B) :
  hoare Q m -> (forall a, Q a -> hoare P (k a)) -> hoare P (bind m k).
Proof.
  intros Hm Hk w; unfold bind.
  specialize (Hm w); destruct (m w) as [[e|a] w']; simpl in *.
  - exact Hm.
  - exact (Hk a Hm w').
Qed.

Lemma hoare_weaken {A} (P Q : A -> Prop) m :
  (forall a, P a -> Q a) -> hoare P m -> hoare Q m.
Proof.
  intros HPQ H w; specialize (H w); destruct (fst (m w)); auto.
Qed.

Lemma hoare_div x y : ~ (y == 0)%Q -> hoare (fun q => q = (x / y)%Q) (py_div x y).
Proof.
  intros Hy w; unfold py_div.
  destruct (Qeq_bool y 0) eqn:E.
  - apply Qeq_bool_eq in E; contradiction.
  - reflexivity.
Qed.

Lemma indep_ret {A} (a : A) : indep (ret a).
Proof. intros w1 w2; reflexivity. Qed.

Lemma indep_raise {A} e : indep (@raise A e).
Proof. intros w1 w2; reflexivity. Qed.

Lemma indep_bind {A B} m (k : A -> M B) :
  indep m -> (forall a, indep (k a)) -> indep (bind m k).
Proof.
  intros Hm Hk w1 w2; unfold bind.
  specialize (Hm w1 w2).
  destruct (m w1) as [r1 w1'], (m w2) as [r2 w2']; simpl in Hm; subst r2.
  destruct r1; [reflexivity | apply Hk].
Qed.

Lemma indep_div x y : indep (py_div x y).
Proof. unfold py_div; destruct (Qeq_bool y 0); [apply indep_raise | apply indep_ret]. Qed.

Lemma indep_write s : indep (write_results s).
Proof. intros w1 w2; reflexivity. Qed.

Lemma sends_ret {A} P n (a : A) : sends P n (ret a).
Proof.
  intros w; exists []; simpl; rewrite app_nil_r; repeat split; [lia | constructor].
Qed.

Lemma sends_div P n x y : sends P n (py_div x y).
Proof.
  unfold py_div; destruct (Qeq_bool y 0); intros w; exists [];
    simpl; rewrite app_nil_r; repeat split; (lia || constructor).
Qed.

Lemma sends_bind {A B} P n k N m (f : A -> M B) :
  sends P n m -> (forall a, sends P k (f a)) -> (n + k <= N)%nat ->
  sends P N (bind m f).
Proof.
  intros Hm Hf Hle w; unfold bind.
  destruct (Hm w) as (l1 & E1 & L1 & F1 & R1).
  destruct (m w) as [[e|a] w']; simpl in *.
  - exists l1; repeat split; auto; lia.
  - destruct (Hf a w') as (l2 & E2 & L2 & F2 & R2).
    exists (l1 ++ l2); rewrite E2, E1, app_assoc; repeat split.
    + rewrite length_app; lia.
    + apply Forall_app; auto.
    + congruence.
Qed.

Lemma sends_mono {A} (P Q : Request -> Prop) n N (m : M A) :
  (forall r, P r -> Q r) -> (n <= N)%nat -> sends P n m -> sends Q N m.
Proof.
  intros HPQ Hn H w; destruct (H w) as (l & E & L & F & R).
  exists l; repeat split; auto; [lia | eapply Forall_impl; eauto].
Qed.

Section WithProvider.
Variable POLYGON_KEY : string.
Variable provider : Request -> Response.

Local Abbreviation fetch := (fetch_close POLYGON_KEY provider).

Lemma fetch_close_shape tk d w :
  exists r,
    fetch tk d w =
      (inr r, mkWorld (sent w ++ (if String.eqb POLYGON_KEY "" then [] else [window_request tk d]))
                      (results_file w)).
Proof.
  unfold fetch, fetch_close, polygon_get, bind, send, ret.
  destruct (String.eqb POLYGON_KEY ""); simpl.
  - eexists; rewrite app_nil_r; destruct w; reflexivity.
  - eexists; reflexivity.
Qed.

Lemma hoare_fetch tk d : hoare (fun _ => True) (fetch tk d).
Proof. intros w; destruct (fetch_close_shape tk d w) as [r E]; rewrite E; exact I. Qed.

Lemma indep_fetch tk d : indep (fetch tk d).
Proof.
  intros w1 w2; unfold fetch, fetch_close, polygon_get, bind, send, ret.
  destruct (String.eqb POLYGON_KEY ""); reflexivity.
Qed.

Lemma sends_fetch (P : Request -> Prop) tk d :
  P (window_request tk d) -> sends P 1 (fetch tk d).
Proof.
  intros HP w; destruct (fetch_close_shape tk d w) as [r E]; rewrite E; simpl.
  destruct (String.eqb POLYGON_KEY "").
  - exists []; repeat split; auto; lia.
  - exists [window_request tk d]; repeat split; auto.
Qed.


Lemma fetch_close_eval tk d w :
  fetch tk d w =
    (inr (resolved_close POLYGON_KEY provider tk d),
     mkWorld (sent w ++ (if String.eqb POLYGON_KEY "" then [] else [window_request tk d]))
             (results_file w)).
Proof.
  destruct (fetch_close_shape tk d w) as [r E]; rewrite E.
  unfold resolved_close.
  rewrite <- (indep_fetch tk d w (mkWorld [] None)), E; reflexivity.
Qed.

End WithProvider.

End BacktestFacts.

(** ** Claims about the price lookup *)

Module PriceOracle.
Import BacktestEngine BacktestFacts Specs.

(** C6: [fetch_close] never raises. It yields [None] when the key is
    missing (and then sends no request), on a transport error, on a
    non-200 status, on a body that is not a JSON object, and when the
    window holds no bar; otherwise it yields the close of the first bar the
    provider lists for the window starting at the target date. *)
Theorem fetch_close_absent_or_first_close :
  forall (key : string) (provider : Request -> Response) (tk : string) (d : Z) (w : World),
    let rq := window_request tk d in
    let r := fst (fetch_close key provider tk d w) in
    (exists v, r = inr v) /\
    (key = "" -> r = inr None /\ sent (snd (fetch_close key provider tk d w)) = sent w) /\
    (key <> "" ->
      sent (snd (fetch_close key provider tk d w)) = sent w ++ [rq] /\
      (provider rq = TransportError -> r = inr None) /\
      (forall status body, provider rq = Http status body -> status <> 200 -> r = inr None) /\
      (provider rq = Http 200 None -> r = inr None) /\
      (provider rq = Http 200 (Some (mkAggsBody None)) -> r = inr None) /\
      (provider rq = Http 200 (Some (mkAggsBody (Some []))) -> r = inr None) /\
      (forall b bs, provider rq = Http 200 (Some (mkAggsBody (Some (b :: bs)))) ->
                    r = inr (Some (c b)))).
Proof.
  intros key provider tk d w rq r; subst rq r.
  unfold fetch_close, polygon_get, bind, send, ret; simpl.
  destruct (String.eqb key "") eqn:Ek.
  - apply String.eqb_eq in Ek; subst key; simpl.
    split; [eexists; reflexivity|].
    split; [intros _; split; reflexivity | intros H; contradiction].
  - apply String.eqb_neq in Ek.
    split; [eexists; reflexivity|].
    split; [intros H; contradiction|].
    intros _; unfold window_request; simpl.
    repeat split.
    + intros H; rewrite H; reflexivity.
    + intros status body H Hs; rewrite H.
      apply Z.eqb_neq in Hs; rewrite Hs; reflexivity.
    + intros H; rewrite H; reflexivity.
    + intros H; rewrite H; reflexivity.
    + intros H; rewrite H; reflexivity.
    + intros b bs H; rewrite H; reflexivity.
Qed.

End PriceOracle.

(** ** Arithmetic facts *)

Module NumFacts.

Lemma Qlt_bool_iff a b : Qlt_bool a b = true <-> (a < b)%Q.
Proof.
  unfold Qlt_bool; rewrite negb_true_iff; split.
  - intros H; apply Qnot_le_lt; intros H'; apply Qle_bool_iff in H'; congruence.
  - intros H; destruct (Qle_bool b a) eqn:E; [|reflexivity].
    apply Qle_bool_iff in E; exfalso; apply (Qlt_not_le _ _ H E).
Qed.

Lemma Qlt_bool_false a b : Qlt_bool a b = false <-> (b <= a)%Q.
Proof.
  split.
  - intros H; apply Qnot_lt_le; intros H'; apply Qlt_bool_iff in H'; congruence.
  - intros H; destruct (Qlt_bool a b) eqn:E; [|reflexivity].
    apply Qlt_bool_iff in E; exfalso; apply (Qlt_not_le _ _ E H).
Qed.

Lemma round_half_even_Z_nonpos y : (y <= 0)%Q -> round_half_even_Z y <= 0.
Proof.
  intros Hy; unfold round_half_even_Z.
  pose proof (Qfloor_le y) as Hf.
  assert (Hf0 : Qfloor y <= 0).
  { rewrite Zle_Qle; apply (Qle_trans _ y); [exact Hf | exact Hy]. }
  destruct (Z.eq_dec (Qfloor y) 0) as [E|E].
  - rewrite E.
    replace ((y - inject_Z 0) ?= 1 # 2)%Q with Lt; [lia|].
    symmetry; apply (proj1 (Qlt_alt _ _)).
    change (inject_Z 0) with 0%Q; lra.
  - destruct (_ ?= _)%Q; [destruct (Z.even _)|..]; lia.
Qed.

Lemma py_round_nonpos nd x : (x <= 0)%Q -> (py_round nd x <= 0)%Q.
Proof.
  intros Hx; unfold py_round.
  assert (Hs : (0 < inject_Z (10 ^ Z.of_nat nd))%Q).
  { change 0%Q with (inject_Z 0); rewrite <- Zlt_Qlt; apply Z.pow_pos_nonneg; lia. }
  assert (Hn : (inject_Z (round_half_even_Z (x * inject_Z (10 ^ Z.of_nat nd))) <= 0)%Q).
  { replace 0%Q with (inject_Z 0) by reflexivity; rewrite <- Zle_Qle.
    apply round_half_even_Z_nonpos.
    replace 0%Q with (0 * inject_Z (10 ^ Z.of_nat nd))%Q by reflexivity.
    apply (proj2 (Qmult_le_r _ _ _ Hs)); exact Hx. }
  unfold Qdiv.
  apply (Qle_trans _ (0 * / inject_Z (10 ^ Z.of_nat nd))%Q); [|simpl; lra].
  apply Qmult_le_compat_r; [exact Hn|].
  apply Qinv_le_0_compat; lra.
Qed.

Lemma fold_left_Qplus xs a :
  (fold_left Qplus xs a == a + fold_right Qplus 0 xs)%Q.
Proof.
  revert a; induction xs as [|x xs IH]; intros a; simpl.
  - lra.
  - rewrite IH; lra.
Qed.

Lemma py_sum_nonpos_zero xs :
  Forall (fun x => x <= 0)%Q xs ->
  ((py_sum xs == 0)%Q <-> Forall (fun x => x == 0)%Q xs).
Proof.
  unfold py_sum; intros H; rewrite fold_left_Qplus.
  induction H as [|x xs Hx Hxs IH]; simpl.
  - split; intros; [constructor | lra].
  - assert (Hr : (fold_right Qplus 0 xs <= 0)%Q).
    { clear IH; induction Hxs; simpl; lra. }
    split.
    + intros E; constructor; [lra|].
      apply IH; lra.
    + intros F; inversion F as [|? ? Hx0 Hr0]; subst.
      apply IH in Hr0; lra.
Qed.

Lemma inject_length_nz n : ~ (inject_Z (Z.of_nat (S n)) == 0)%Q.
Proof. unfold Qeq; simpl; lia. Qed.

End NumFacts.

(** ** Invariants of the evaluation loop and of the metrics *)

Module PipelineFacts.
Import BacktestEngine BacktestFacts NumFacts Specs.

Lemma eligible_price today e :
  is_eligible today e = true -> exists p, e_price e = Some p /\ (0 < p)%Q.
Proof.
  unfold is_eligible; intros H.
  apply andb_true_iff in H as [_ H]; apply Qlt_bool_iff in H.
  destruct (e_price e) as [p|]; [exists p; split; auto | simpl in H; lra].
Qed.

Lemma truthy_nz x : truthy (Some x) = true -> ~ (x == 0)%Q.
Proof.
  simpl; intros H E; apply negb_true_iff in H.
  apply Qeq_bool_iff in E; congruence.
Qed.

Lemma hoare_process key prov today e tr sp :
  is_eligible today e = true -> Forall trade_ok tr ->
  hoare (fun acc' => Forall trade_ok (fst acc')) (process_entry key prov today e (tr, sp)).
Proof.
  intros He Htr; unfold process_entry.
  destruct (eligible_price _ _ He) as (p & Ep & Hp); rewrite Ep.
  cbv beta iota zeta.
  destruct (today <=? _); [apply hoare_ret; exact Htr|].
  eapply hoare_bind; [apply hoare_fetch|]; intros [x|] _; [|apply hoare_ret; exact Htr].
  eapply hoare_bind; [apply hoare_div; lra|]; intros q _.
  eapply hoare_bind; [apply hoare_fetch|]; intros se _.
  eapply hoare_bind; [apply hoare_fetch|]; intros sx _.
  eapply hoare_bind with (Q := fun _ => True).
  { destruct (truthy se && truthy sx) eqn:T; [|apply hoare_ret; exact I].
    apply andb_true_iff in T as [T1 T2].
    destruct se as [a|], sx as [b|]; try (apply hoare_ret; exact I).
    eapply hoare_bind; [apply hoare_div, truthy_nz, T1 | intros; apply hoare_ret; exact I]. }
  intros sr _; apply hoare_ret; simpl.
  apply Forall_app; split; [exact Htr|].
  constructor; [|constructor].
  intros Hw; simpl in Hw |- *.
  apply py_round_nonpos, Qlt_bool_false, Hw.
Qed.

Lemma hoare_loop key prov today es tr sp :
  Forall (fun e => is_eligible today e = true) es -> Forall trade_ok tr ->
  hoare (fun acc' => Forall trade_ok (fst acc')) (backtest_loop key prov today es (tr, sp)).
Proof.
  intros Hes; revert tr sp; induction Hes as [|e es He Hes IH]; intros tr sp Htr; simpl.
  - apply hoare_ret; exact Htr.
  - eapply hoare_bind; [apply hoare_process; eauto|].
    intros [tr' sp'] H'; apply IH; exact H'.
Qed.

Lemma hoare_summarize today tr sp : hoare (summary_ok today tr) (summarize today tr sp).
Proof.
  unfold summarize; destruct tr as [|t0 tr'].
  - apply hoare_ret; unfold summary_ok; simpl.
    repeat split; auto; try (intros H; contradiction H; reflexivity).
  - cbv beta iota zeta.
    eapply hoare_bind; [apply hoare_div, inject_length_nz|]; intros wr _.
    eapply hoare_bind; [apply hoare_div, inject_length_nz|]; intros ar _.
    eapply hoare_bind with
      (Q := fun pf => pf = None <-> ~ (0 < gross_loss_of (t0 :: tr'))%Q).
    { destruct (Qlt_bool 0 _) eqn:G.
      - apply Qlt_bool_iff in G.
        eapply hoare_bind; [apply hoare_div; lra|].
        intros ? ?; apply hoare_ret; split; [discriminate|].
        intros Hn; exfalso; apply Hn; exact G.
      - apply hoare_ret; split; [|reflexivity].
        intros _ H; apply Qlt_bool_iff in H; unfold gross_loss_of in H; congruence. }
    intros pf Hpf.
    eapply hoare_bind with (Q := fun _ => True).
    { destruct sp as [|s0 sp']; [apply hoare_ret; exact I|].
      eapply hoare_bind; [apply hoare_div, inject_length_nz | intros; apply hoare_ret; exact I]. }
    intros aspy _; apply hoare_ret; unfold summary_ok; simpl.
    repeat split; try discriminate; try (intros H; discriminate H).
    + intros H; apply Hpf in H; right; exact H.
    + intros [H|H]; [discriminate H | apply Hpf; exact H].
Qed.

(** What a run on an existing history produces: a summary, written to the
    results file, whose trades all satisfy [trade_ok]. *)
Lemma run_success key prov h today w :
  exists s w',
    run_backtest key prov (Some h) today w = (inr s, w') /\
    results_file w' = Some s /\ Forall trade_ok (trades s) /\
    summary_ok today (trades s) s.
Proof.
  unfold run_backtest, bind.
  assert (Hl := hoare_loop key prov today (filter (is_eligible today) h) [] []
                  (proj2 (Forall_forall _ _) (fun e Hin => proj2 (proj1 (filter_In _ _ _) Hin)))
                  (Forall_nil _) w).
  destruct (backtest_loop key prov today (filter (is_eligible today) h) ([], []) w)
    as [[e|[tr sp]] w1]; simpl in Hl; [contradiction|].
  assert (Hs := hoare_summarize today tr sp w1).
  destruct (summarize today tr sp w1) as [[e|s] w2]; simpl in Hs; [contradiction|].
  destruct Hs as (Hg & Hd & Ht & Hrest).
  exists s, (mkWorld (sent w2) (Some s)).
  split; [reflexivity|]; split; [reflexivity|].
  rewrite Ht; split; [exact Hl|].
  exact (conj Hg (conj Hd (conj Ht Hrest))).
Qed.

Lemma run_missing_history key prov today w :
  run_backtest key prov None today w = (inl (SystemExit 1), w).
Proof. reflexivity. Qed.

End PipelineFacts.

(** ** One signal, evaluated *)

Module EvalFacts.
Import BacktestEngine BacktestFacts NumFacts PipelineFacts Specs.

Lemma py_div_ok x y w : ~ (y == 0)%Q -> py_div x y w = (inr (x / y)%Q, w).
Proof.
  intros Hy; unfold py_div; destruct (Qeq_bool y 0) eqn:E; [|reflexivity].
  apply Qeq_bool_eq in E; contradiction.
Qed.

Lemma process_entry_resolved key prov today e tr sp w p x :
  e_price e = Some p -> ~ (p == 0)%Q ->
  trading_days_after (e_date e) HOLD_DAYS < today ->
  resolved_close key prov (e_ticker e) (trading_days_after (e_date e) HOLD_DAYS) = Some x ->
  let exit := trading_days_after (e_date e) HOLD_DAYS in
  let pct := ((x - p) / p * 100)%Q in
  let sr := spy_return_of (resolved_close key prov "SPY" (e_date e))
                          (resolved_close key prov "SPY" exit) in
  fst (process_entry key prov today e (tr, sp) w) =
    inr (tr ++ [mkTrade (e_ticker e) (e_date e)
                  (match e_action e with Some a => a | None => "" end)
                  (py_round 2 p) (py_round 2 x) exit (py_round 2 pct)
                  (match sr with Some r => Some (py_round 2 r) | None => None end)
                  (Qlt_bool 0 pct)],
         match sr with Some r => sp ++ [r] | None => sp end).
Proof.
  intros Ep Hp Ht Hx exit pct sr; subst exit pct sr.
  unfold process_entry; rewrite Ep; cbv beta iota zeta.
  replace (today <=? trading_days_after (e_date e) HOLD_DAYS) with false
    by (symmetry; apply Z.leb_gt; exact Ht).
  unfold bind; rewrite fetch_close_eval, Hx; cbv beta iota.
  rewrite py_div_ok by exact Hp; cbv beta iota.
  rewrite !fetch_close_eval; cbv beta iota.
  unfold spy_return_of.
  destruct (truthy (resolved_close key prov "SPY" (e_date e)) &&
            truthy (resolved_close key prov "SPY" (trading_days_after (e_date e) HOLD_DAYS)))
    eqn:T; [|reflexivity].
  apply andb_true_iff in T as [Ta _].
  destruct (resolved_close key prov "SPY" (e_date e)) as [a|];
  destruct (resolved_close key prov "SPY" (trading_days_after (e_date e) HOLD_DAYS)) as [b|];
  try reflexivity.
  unfold ret at 1; cbv beta iota.
  rewrite py_div_ok by (apply truthy_nz; exact Ta); reflexivity.
Qed.

(** The result of every stage is independent of the world. *)
Lemma indep_process key prov today e acc : indep (process_entry key prov today e acc).
Proof.
  unfold process_entry; destruct acc as [tr sp]; cbv beta iota zeta.
  destruct (today <=? _); [apply indep_ret|].
  apply indep_bind; [apply indep_fetch | intros [x|]; [|apply indep_ret]].
  apply indep_bind; [apply indep_div | intros q].
  apply indep_bind; [apply indep_fetch | intros se].
  apply indep_bind; [apply indep_fetch | intros sx].
  apply indep_bind; [| intros sr; apply indep_ret].
  destruct (truthy se && truthy sx); [|apply indep_ret].
  destruct se, sx; try apply indep_ret.
  apply indep_bind; [apply indep_div | intros; apply indep_ret].
Qed.

Lemma indep_loop key prov today es acc : indep (backtest_loop key prov today es acc).
Proof.
  revert acc; induction es as [|e es IH]; intros acc; simpl.
  - apply indep_ret.
  - apply indep_bind; [apply indep_process | intros; apply IH].
Qed.

Lemma indep_summarize today tr sp : indep (summarize today tr sp).
Proof.
  unfold summarize; destruct tr as [|t0 tr']; [apply indep_ret|]; cbv beta iota zeta.
  apply indep_bind; [apply indep_div | intros wr].
  apply indep_bind; [apply indep_div | intros ar].
  apply indep_bind.
  { destruct (Qlt_bool _ _); [|apply indep_ret].
    apply indep_bind; [apply indep_div | intros; apply indep_ret]. }
  intros pf; apply indep_bind; [| intros; apply indep_ret].
  destruct sp; [apply indep_ret|].
  apply indep_bind; [apply indep_div | intros; apply indep_ret].
Qed.

Lemma indep_run key prov hist today : indep (run_backtest key prov hist today).
Proof.
  unfold run_backtest; destruct hist as [h|]; [|apply indep_raise].
  apply indep_bind; [apply indep_loop | intros [tr sp]].
  apply indep_bind; [apply indep_summarize | intros s].
  apply indep_bind; [apply indep_write | intros; apply indep_ret].
Qed.

Lemma sends_process key prov today e acc :
  sends (signal_request e) 3 (process_entry key prov today e acc).
Proof.
  unfold process_entry; destruct acc as [tr sp]; cbv beta iota zeta.
  destruct (today <=? _); [apply sends_ret|].
  eapply sends_bind with (n := 1%nat) (k := 2%nat);
    [apply sends_fetch; left; reflexivity | intros [x|] | lia]; [|apply sends_ret].
  eapply sends_bind with (n := 0%nat) (k := 2%nat); [apply sends_div | intros q | lia].
  eapply sends_bind with (n := 1%nat) (k := 1%nat);
    [apply sends_fetch; right; left; reflexivity | intros se | lia].
  eapply sends_bind with (n := 1%nat) (k := 0%nat);
    [apply sends_fetch; right; right; reflexivity | intros sx | lia].
  eapply sends_bind with (n := 0%nat) (k := 0%nat); [| intros; apply sends_ret | lia].
  destruct (truthy se && truthy sx); [|apply sends_ret].
  destruct se, sx; try apply sends_ret.
  eapply sends_bind with (n := 0%nat) (k := 0%nat);
    [apply sends_div | intros; apply sends_ret | lia].
Qed.

End EvalFacts.

(** ** Claims about the backtest *)

Module BacktestClaims.
Import BacktestEngine Specs Scenarios BacktestFacts NumFacts PipelineFacts EvalFacts.

Lemma losses_nonpos tr :
  Forall trade_ok tr ->
  Forall (fun x => x <= 0)%Q (map pct_return (filter (fun t => negb (won t)) tr)).
Proof.
  induction 1 as [|t tr Ht _ IH]; simpl; [constructor|].
  destruct (won t) eqn:W; simpl; [exact IH|].
  constructor; [apply Ht; exact W | exact IH].
Qed.

Lemma losses_zero_map tr :
  Forall (fun x => x == 0)%Q (map pct_return (filter (fun t => negb (won t)) tr)) <->
  Forall (fun t => won t = false -> (pct_return t == 0)%Q) tr.
Proof.
  induction tr as [|t tr IH]; simpl; [split; constructor|].
  destruct (won t) eqn:W; simpl.
  - rewrite IH; split; intros H.
    + constructor; [intros W'; rewrite W in W'; discriminate | exact H].
    + inversion H; assumption.
  - split; intros H; inversion H as [|? ? H1 H2]; subst; constructor.
    + intros _; exact H1.
    + apply IH; exact H2.
    + apply H1; exact W.
    + apply IH; exact H2.
Qed.

Lemma gross_loss_zero_iff tr :
  Forall trade_ok tr ->
  ((tr = [] \/ ~ (0 < gross_loss_of tr)%Q) <->
   Forall (fun t => won t = false -> (pct_return t == 0)%Q) tr).
Proof.
  intros Hok; unfold gross_loss_of.
  pose proof (losses_nonpos tr Hok) as Hn.
  set (L := map pct_return (filter (fun t => negb (won t)) tr)) in *.
  assert (HS : (py_sum L <= 0)%Q).
  { unfold py_sum; rewrite fold_left_Qplus.
    clear -Hn; induction Hn; simpl; lra. }
  rewrite <- losses_zero_map; fold L.
  rewrite <- (py_sum_nonpos_zero L Hn).
  rewrite (Qabs_neg _ HS).
  split.
  - intros [E|H].
    + subst L; rewrite E; reflexivity.
    + lra.
  - intros H; right; lra.
Qed.

Lemma in_BUY_ACTIONS_iff a : in_BUY_ACTIONS a = true <-> In a BUY_ACTIONS.
Proof.
  unfold in_BUY_ACTIONS; rewrite existsb_exists; split.
  - intros (x & Hin & E); apply String.eqb_eq in E; subst; exact Hin.
  - intros Hin; exists a; split; [exact Hin | apply String.eqb_refl].
Qed.

Lemma spy_return_of_absent se sx :
  (se = None \/ se = Some 0%Q \/ sx = None \/ sx = Some 0%Q) -> spy_return_of se sx = None.
Proof.
  unfold spy_return_of; intros [ -> | [ -> | [ -> | -> ]]]; simpl; try reflexivity;
    rewrite andb_false_r; reflexivity.
Qed.

(** C1 (amended): a run's [profit_factor] is [None] exactly when every
    losing trade ([won = false]) has a rounded [pct_return] of [0]; so it is
    [None] for an empty trade list and when there is no losing trade, and it
    is set as soon as one losing trade has a non-zero rounded return. *)
Theorem profit_factor_null_iff_zero_losses :
  forall key prov hist today w s,
    fst (run_backtest key prov hist today w) = inr s ->
    (profit_factor s = None <->
     Forall (fun t => won t = false -> (pct_return t == 0)%Q) (trades s)).
Proof.
  intros key prov [h|] today w s H; [|discriminate H].
  destruct (run_success key prov h today w) as (s' & w' & E & _ & Hok & Hs).
  rewrite E in H; injection H as <-.
  destruct Hs as (_ & _ & _ & _ & _ & Hpf).
  rewrite Hpf; apply gross_loss_zero_iff; exact Hok.
Qed.

Lemma profit_factor_null_iff_zero_losses_witness :
  fst (run_on 90 100) = inr (summary_on 90 100) /\
  (profit_factor (summary_on 90 100) = None <->
   Forall (fun t => won t = false -> (pct_return t == 0)%Q) (trades (summary_on 90 100))).
Proof.
  assert (H : fst (run_on 90 100) = inr (summary_on 90 100)) by (vm_compute; reflexivity).
  split; [exact H | exact (profit_factor_null_iff_zero_losses _ _ _ _ _ _ H)].
Defined.

(** C1 counterexample: exit price equal to the entry price gives one losing
    trade (return 0), and still a [None] profit factor. *)
Lemma profit_factor_null_with_losing_trade :
  fst (run_on 100 100) = inr (summary_on 100 100) /\
  existsb (fun t => negb (won t)) (trades (summary_on 100 100)) = true /\
  profit_factor (summary_on 100 100) = None.
Proof. vm_compute; repeat split. Qed.

(** C2 (amended): a history entry is eligible exactly when its action,
    upper-cased (a missing action reads as [""]), is one of [BUY_ACTIONS],
    it is at least [MIN_AGE_DAYS] days old, and its price (a missing price
    reads as [0]) is positive; an age of exactly [MIN_AGE_DAYS] is
    included, one day less is excluded. *)
Theorem eligibility_conditions :
  (forall today e,
    is_eligible today e = true <->
    In (py_upper (match e_action e with Some a => a | None => "" end)) BUY_ACTIONS /\
    MIN_AGE_DAYS <= today - e_date e /\
    (0 < match e_price e with Some p => p | None => 0 end)%Q) /\
  (forall today tk a p,
    In (py_upper a) BUY_ACTIONS -> (0 < p)%Q ->
    is_eligible today (mkEntry tk (today - MIN_AGE_DAYS) (Some a) (Some p)) = true /\
    is_eligible today (mkEntry tk (today - (MIN_AGE_DAYS - 1)) (Some a) (Some p)) = false).
Proof.
  split.
  - intros today e; unfold is_eligible.
    rewrite !andb_true_iff, in_BUY_ACTIONS_iff, Z.leb_le, Qlt_bool_iff; tauto.
  - intros today tk a p Ha Hp; unfold is_eligible; simpl.
    apply in_BUY_ACTIONS_iff in Ha; rewrite Ha.
    unfold MIN_AGE_DAYS; simpl.
    replace (today - (today - 5)) with 5 by lia.
    replace (today - (today - 4)) with 4 by lia.
    simpl; split; [apply Qlt_bool_iff; exact Hp | reflexivity].
Qed.

(** C2 counterexample: the action ["buy"] is not one of [BUY_ACTIONS], yet
    the entry is eligible. *)
Lemma lowercase_action_eligible :
  is_eligible 2000 (mkEntry "AAPL" 1000 (Some "buy") (Some 100%Q)) = true /\
  ~ In "buy" BUY_ACTIONS.
Proof.
  split; [vm_compute; reflexivity|].
  simpl; intros [H|[H|[H|H]]]; [discriminate H | discriminate H | discriminate H | exact H].
Qed.

(** C4 (amended): for an entry of price [p > 0] whose exit price [x]
    resolves, the trade appended has [pct_return = round((x-p)/p*100, 2)]
    and [won] is the unrounded return being positive, so [x == p] gives a
    losing trade. *)
Theorem trade_pct_return_and_won :
  forall key prov today e tr sp w p x,
    e_price e = Some p -> (0 < p)%Q ->
    trading_days_after (e_date e) HOLD_DAYS < today ->
    resolved_close key prov (e_ticker e) (trading_days_after (e_date e) HOLD_DAYS) = Some x ->
    exists t sp',
      fst (process_entry key prov today e (tr, sp) w) = inr (tr ++ [t], sp') /\
      pct_return t = py_round 2 ((x - p) / p * 100)%Q /\
      won t = Qlt_bool 0 ((x - p) / p * 100)%Q /\
      ((x == p)%Q -> won t = false).
Proof.
  intros key prov today e tr sp w p x Ep Hp Ht Hx.
  rewrite (process_entry_resolved key prov today e tr sp w p x Ep ltac:(intros E; lra) Ht Hx).
  eexists _, _; split; [reflexivity|]; simpl.
  split; [reflexivity|]; split; [reflexivity|].
  intros Hxp; apply Qlt_bool_false.
  assert (E : ((x - p) / p * 100 == 0)%Q) by (rewrite Hxp; unfold Qdiv; ring).
  rewrite E; apply Qle_refl.
Qed.

Lemma trade_pct_return_and_won_witness :
  exists t sp',
    fst (process_entry "key" (flat_provider 110) 2000 (buy_at 100) ([], []) w0) =
      inr ([] ++ [t], sp') /\
    pct_return t = py_round 2 ((110 - 100) / 100 * 100)%Q /\
    won t = Qlt_bool 0 ((110 - 100) / 100 * 100)%Q /\
    ((110 == 100)%Q -> won t = false).
Proof.
  apply (trade_pct_return_and_won "key" (flat_provider 110) 2000 (buy_at 100) [] [] w0 100 110);
    vm_compute; reflexivity.
Defined.

(** C4 counterexample: entry 3, exit 4: the stored [pct_return] is [33.33],
    not [(4-3)/3*100]. *)
Lemma pct_return_is_rounded :
  match trades (summary_on 4 3) with
  | [t] => pct_return t = (3333 # 100)%Q /\ ~ (pct_return t == (4 - 3) / 3 * 100)%Q
  | _ => False
  end.
Proof. vm_compute; split; [reflexivity | discriminate]. Qed.

(** C5: every summary a run produces has [data_points] equal to the number
    of trades, and its four metrics are all [None] exactly when there is no
    trade. *)
Theorem summary_points_and_nullity :
  forall key prov hist today w s,
    fst (run_backtest key prov hist today w) = inr s ->
    data_points s = List.length (trades s) /\
    ((win_rate s = None /\ profit_factor s = None /\ alpha_vs_spy s = None /\
      avg_return s = None) <-> trades s = []).
Proof.
  intros key prov [h|] today w s H; [|discriminate H].
  destruct (run_success key prov h today w) as (s' & w' & E & _ & _ & Hs).
  rewrite E in H; injection H as <-.
  destruct Hs as (_ & Hd & _ & Hnil & Hcons & _).
  split; [exact Hd|]; split.
  - intros (Hw & _ & _ & _).
    destruct (trades s') as [|t0 tr0] eqn:T; [reflexivity|].
    exfalso; apply (proj1 (Hcons ltac:(discriminate))); exact Hw.
  - intros T; exact (Hnil T).
Qed.

Lemma summary_points_and_nullity_witness :
  fst (run_on 110 100) = inr (summary_on 110 100) /\
  data_points (summary_on 110 100) = List.length (trades (summary_on 110 100)) /\
  ((win_rate (summary_on 110 100) = None /\ profit_factor (summary_on 110 100) = None /\
    alpha_vs_spy (summary_on 110 100) = None /\ avg_return (summary_on 110 100) = None) <->
   trades (summary_on 110 100) = []).
Proof.
  assert (H : fst (run_on 110 100) = inr (summary_on 110 100)) by (vm_compute; reflexivity).
  split; [exact H | exact (summary_points_and_nullity _ _ _ _ _ _ H)].
Defined.

(** C8: the result of a run depends only on the history, the day and the
    provider, not on the world it starts in; a second run on the world the
    first one left gives the same result and leaves the same results file. *)
Theorem run_backtest_deterministic :
  forall key prov hist today w,
    (forall w', fst (run_backtest key prov hist today w') =
                fst (run_backtest key prov hist today w)) /\
    let w1 := snd (run_backtest key prov hist today w) in
    fst (run_backtest key prov hist today w1) = fst (run_backtest key prov hist today w) /\
    results_file (snd (run_backtest key prov hist today w1)) = results_file w1.
Proof.
  intros key prov hist today w.
  split; [intros w'; apply indep_run|].
  intros w1; split; [apply indep_run|].
  subst w1; destruct hist as [h|]; [|reflexivity].
  destruct (run_success key prov h today w) as (s & w' & E & F & _).
  destruct (run_success key prov h today w') as (s2 & w2 & E2 & F2 & _).
  pose proof (indep_run key prov (Some h) today w w') as I.
  rewrite E, E2 in I; cbn [fst] in I.
  rewrite E; cbn [snd]; rewrite E2; cbn [snd]; rewrite F, F2.
  congruence.
Qed.

(** C9 (amended): processing one signal appends at most three requests:
    the signal's ticker at the exit date, and SPY at the signal date and at
    the exit date. *)
Theorem per_signal_requests :
  forall key prov today e acc w,
    exists added,
      sent (snd (process_entry key prov today e acc w)) = sent w ++ added /\
      (List.length added <= 3)%nat /\ Forall (signal_request e) added.
Proof.
  intros key prov today e acc w.
  destruct (sends_process key prov today e acc w) as (added & E & L & F & _).
  exists added; auto.
Qed.

(** C9 counterexample: one eligible signal, three requests. *)
Lemma three_requests_for_one_signal :
  List.length (filter (is_eligible 2000) [buy_at 100]) = 1%nat /\
  List.length (sent (snd (run_on 110 100))) = 3%nat.
Proof. vm_compute; split; reflexivity. Qed.

(** C10: no run raises [ZeroDivisionError]; and a benchmark close that is
    missing or exactly [0] leaves the benchmark return absent while the
    trade is still appended. *)
Theorem no_zero_division :
  (forall key prov hist today w,
     fst (run_backtest key prov hist today w) <> inl ZeroDivisionError) /\
  (forall key prov today e tr sp w p x,
     e_price e = Some p -> (0 < p)%Q ->
     trading_days_after (e_date e) HOLD_DAYS < today ->
     resolved_close key prov (e_ticker e) (trading_days_after (e_date e) HOLD_DAYS) = Some x ->
     let se := resolved_close key prov "SPY" (e_date e) in
     let sx := resolved_close key prov "SPY" (trading_days_after (e_date e) HOLD_DAYS) in
     (se = None \/ se = Some 0%Q \/ sx = None \/ sx = Some 0%Q) ->
     exists t, fst (process_entry key prov today e (tr, sp) w) = inr (tr ++ [t], sp) /\
               spy_return t = None).
Proof.
  split.
  - intros key prov [h|] today w.
    + destruct (run_success key prov h today w) as (s & w' & E & _).
      rewrite E; discriminate.
    + discriminate.
  - intros key prov today e tr sp w p x Ep Hp Ht Hx se sx Habs.
    rewrite (process_entry_resolved key prov today e tr sp w p x Ep ltac:(intros E; lra) Ht Hx).
    subst se sx; rewrite (spy_return_of_absent _ _ Habs).
    eexists; split; reflexivity.
Qed.

End BacktestClaims.

(** ** Claims about the report parser *)

Module DashboardClaims.
Import Dashboard.

Section TableFacts.
Variable R : Type.
Variable is_header : string -> bool.
Variable min_cells : nat.
Variable make_row : list string -> option R.

Local Abbreviation scan := (scan_rows is_header min_cells make_row).
Local Abbreviation state := (table_state is_header min_cells make_row).

Lemma scan_rows_app st pre rest :
  scan st (pre ++ rest) =
    match scan st pre with
    | None => None
    | Some xs =>
        match scan (state st pre) rest with
        | Some ys => Some (xs ++ ys)
        | None => None
        end
    end.
Proof.
  revert st; induction pre as [|raw pre IH]; intros st; simpl.
  - destruct (scan st rest); reflexivity.
  - destruct (scan_line is_header min_cells make_row st raw) as [st' [[row|]|]]; simpl;
      rewrite ?IH; try reflexivity.
    destruct (scan st' pre); [|reflexivity].
    destruct (scan (state st' pre) rest); reflexivity.
Qed.

Lemma scan_short_row l post :
  startswith_bar (py_strip l) = true ->
  (List.length (row_cells (py_strip l)) < min_cells)%nat ->
  scan true (l :: post) = scan true post /\
  fst (scan_line is_header min_cells make_row true l) = true.
Proof.
  intros Hb Hc; simpl; unfold scan_line.
  destruct (is_header (py_strip l)); [split; reflexivity|]; simpl.
  destruct (is_separator (py_strip l)); [split; reflexivity|].
  rewrite Hb; simpl.
  apply Nat.ltb_lt in Hc; rewrite Hc; split; reflexivity.
Qed.

Lemma scan_drop_short_row pre l post :
  state false pre = true ->
  startswith_bar (py_strip l) = true ->
  (List.length (row_cells (py_strip l)) < min_cells)%nat ->
  scan false (pre ++ l :: post) = scan false (pre ++ post).
Proof.
  intros Hs Hb Hc.
  rewrite !scan_rows_app, Hs.
  rewrite (proj1 (scan_short_row l post Hb Hc)); reflexivity.
Qed.

End TableFacts.

(** C7: inside a recognised table, a row line (it starts with [|]) with
    fewer cells than the table's minimum (10 for opportunities, 8 for
    results) changes nothing: the rows parsed, or the exception raised, are
    those of the text without that line. *)
Theorem short_row_dropped :
  forall pre l post,
    (table_state opportunity_header 10 make_opportunity false pre = true ->
     startswith_bar (py_strip l) = true ->
     (List.length (row_cells (py_strip l)) < 10)%nat ->
     opportunity_rows (pre ++ l :: post) = opportunity_rows (pre ++ post)) /\
    (table_state performance_header 8 make_performance false pre = true ->
     startswith_bar (py_strip l) = true ->
     (List.length (row_cells (py_strip l)) < 8)%nat ->
     performance_rows (pre ++ l :: post) = performance_rows (pre ++ post)).
Proof.
  intros pre l post; split; intros Hs Hb Hc;
    unfold opportunity_rows, performance_rows; apply scan_drop_short_row; assumption.
Qed.

(** A concrete table: the truncated row between two well-formed rows is
    skipped, and both neighbours are parsed. *)
Example short_row_example :
  option_map (map Ticker)
    (opportunity_rows
       ["| Ticker | Sector ETF | Action | Score | Certainty | EPS | RS (1d) | A | B | Stop-Loss |";
        "|---|---|---|---|---|---|---|---|---|---|";
        "| AAPL | XLK | **BUY** | 85 | High | +5% | 1.2 | x | y | 95.0 |";
        "| TRUNC | XLK | BUY |";
        "| MSFT | XLK | WATCH | 70 | Low | -1% | 0.1 | x | y | 9.0 |"]) =
  Some ["AAPL"; "MSFT"].
Proof. vm_compute; reflexivity. Qed.

(** C3 (code defect): the numeric cells are not parsed forgivingly for every
    string. A score cell ["-"] leaves [score_raw = "-"], on which [int]
    raises, and a return cell ["1.2.3%"] captures ["1.2.3"], on which
    [float] raises; one such cell makes the whole parse raise. Cells
    without any digit do default to 0. *)
Theorem numeric_cells_can_raise :
  parse_score "-" = None /\ parse_score "5-10" = None /\
  parse_pct "1.2.3%" = None /\
  parse_score "N/A" = Some 0 /\ parse_score "85" = Some 85 /\
  parse_pct "n/a" = Some 0%Q /\ parse_pct "+12.5%" = Some (125 # 10)%Q /\
  opportunity_rows
    ["| Ticker | Sector ETF | Action | Score | Certainty | EPS | RS (1d) | A | B | Stop-Loss |";
     "| AAPL | XLK | BUY | - | High | +5% | 1.2 | x | y | 95.0 |"] = None.
Proof. vm_compute; repeat split. Qed.

End DashboardClaims.

(** ** Further properties of the backtest engine *)

Module RoundFacts.

Lemma rhe_Qeq x y : (x == y)%Q -> round_half_even_Z x = round_half_even_Z y.
Proof.
  intros H; unfold round_half_even_Z.
  rewrite (Qfloor_comp x y H).
  assert (E : (x - inject_Z (Qfloor y) == y - inject_Z (Qfloor y))%Q) by (rewrite H; reflexivity).
  rewrite (Qcompare_comp _ _ E (1#2) (1#2) (Qeq_refl _)); reflexivity.
Qed.

Lemma rhe_mono x y : (x <= y)%Q -> round_half_even_Z x <= round_half_even_Z y.
Proof.
  intros H.
  assert (Fx := Qfloor_le x); assert (Fy := Qfloor_le y).
  assert (Lx := Qlt_floor x); assert (Ly := Qlt_floor y).
  assert (M := Qfloor_resp_le x y H).
  unfold round_half_even_Z.
  destruct (Z.eq_dec (Qfloor x) (Qfloor y)) as [Ef|Nf].
  - rewrite <- Ef.
    set (f := Qfloor x) in *.
    destruct (Qcompare (x - inject_Z f) (1#2)) eqn:Ex;
    destruct (Qcompare (y - inject_Z f) (1#2)) eqn:Ey;
    try (destruct (Z.even f)); try lia;
    repeat match goal with
    | E : (_ ?= _)%Q = Eq |- _ => apply Qeq_alt in E
    | E : (_ ?= _)%Q = Lt |- _ => apply Qlt_alt in E
    | E : (_ ?= _)%Q = Gt |- _ => apply Qgt_alt in E
    end; exfalso; lra.
  - assert (Qfloor x < Qfloor y) by lia.
    destruct (Qcompare (x - _) _), (Qcompare (y - _) _);
      try destruct (Z.even (Qfloor x)); try destruct (Z.even (Qfloor y)); lia.
Qed.

Lemma rhe_inject z : round_half_even_Z (inject_Z z) = z.
Proof.
  unfold round_half_even_Z; rewrite Qfloor_Z.
  assert (L : (inject_Z z - inject_Z z < 1 # 2)%Q) by lra.
  rewrite (proj1 (Qlt_alt _ _) L); reflexivity.
Qed.

Lemma scale_pos nd : (0 < inject_Z (10 ^ Z.of_nat nd))%Q.
Proof.
  change 0%Q with (inject_Z 0); rewrite <- Zlt_Qlt.
  apply Z.pow_pos_nonneg; lia.
Qed.

Lemma py_round_mono nd x y : (x <= y)%Q -> (py_round nd x <= py_round nd y)%Q.
Proof.
  intros H; unfold py_round.
  assert (S := scale_pos nd).
  set (s := inject_Z (10 ^ Z.of_nat nd)) in *.
  assert (R : round_half_even_Z (x * s) <= round_half_even_Z (y * s)).
  { apply rhe_mono, Qmult_le_compat_r; lra. }
  apply Qmult_le_compat_r.
  - rewrite <- Zle_Qle; exact R.
  - apply Qinv_le_0_compat; lra.
Qed.

Lemma py_round_idem nd x : (py_round nd (py_round nd x) == py_round nd x)%Q.
Proof.
  unfold py_round at 1.
  assert (S := scale_pos nd).
  assert (E : (py_round nd x * inject_Z (10 ^ Z.of_nat nd) ==
               inject_Z (round_half_even_Z (x * inject_Z (10 ^ Z.of_nat nd))))%Q).
  { unfold py_round; field; lra. }
  rewrite (rhe_Qeq _ _ E), rhe_inject; reflexivity.
Qed.

Lemma py_round_int nd z : (py_round nd (inject_Z z) == inject_Z z)%Q.
Proof.
  unfold py_round.
  assert (S := scale_pos nd).
  rewrite <- inject_Z_mult, rhe_inject, inject_Z_mult; field; lra.
Qed.

End RoundFacts.

Module EngineFacts.
Import BacktestEngine BacktestFacts NumFacts PipelineFacts EvalFacts Specs ExtraSpecs RoundFacts.

Lemma exit_after_29 d : trading_days_after d HOLD_DAYS = d + 29.
Proof. unfold trading_days_after; f_equal. Qed.

Lemma hoare_process_from key prov today e tr sp :
  is_eligible today e = true ->
  hoare (fun acc' => acc' = (tr, sp) \/
           exists t ro, acc' = (tr ++ [t], sp ++ match ro with Some r => [r] | None => [] end) /\
                        trade_from today e t /\
                        has_spy t = match ro with Some _ => true | None => false end)
        (process_entry key prov today e (tr, sp)).
Proof.
  intros He; unfold process_entry.
  destruct (eligible_price _ _ He) as (p & Ep & Hp); rewrite Ep.
  cbv beta iota zeta.
  destruct (today <=? _) eqn:Ed; [apply hoare_ret; left; reflexivity|].
  apply Z.leb_gt in Ed; rewrite exit_after_29 in Ed |- *.
  eapply hoare_bind; [apply hoare_fetch|]; intros [x|] _; [|apply hoare_ret; left; reflexivity].
  eapply hoare_bind; [apply hoare_div; lra|]; intros q _.
  eapply hoare_bind; [apply hoare_fetch|]; intros se _.
  eapply hoare_bind; [apply hoare_fetch|]; intros sx _.
  eapply hoare_bind with (Q := fun _ => True).
  { destruct (truthy se && truthy sx) eqn:T; [|apply hoare_ret; exact I].
    apply andb_true_iff in T as [T1 T2].
    destruct se as [a|], sx as [b|]; try (apply hoare_ret; exact I).
    eapply hoare_bind; [apply hoare_div, truthy_nz, T1 | intros; apply hoare_ret; exact I]. }
  intros sr _; apply hoare_ret; right.
  exists (mkTrade (e_ticker e) (e_date e)
            (match e_action e with Some a => a | None => "" end)
            (py_round 2 p) (py_round 2 x) (e_date e + 29) (py_round 2 (q * 100))
            (match sr with Some r => Some (py_round 2 r) | None => None end)
            (Qlt_bool 0 (q * 100))), sr; split; [destruct sr; rewrite ?app_nil_r; reflexivity|].
  split; [|destruct sr; reflexivity].
  unfold trade_from; simpl.
  split; [reflexivity|]; split; [reflexivity|]; split; [reflexivity|].
  split; [reflexivity|]; split; [exact Ed|].
  split; [exists p; split; [exact Ep | reflexivity]|].
  exists (q * 100)%Q; split; [reflexivity | apply Qlt_bool_iff].
Qed.

Lemma hoare_loop_from key prov today es tr sp :
  Forall (fun e => is_eligible today e = true) es ->
  hoare (fun acc' => exists l l',
           acc' = (tr ++ l, sp ++ l') /\ (List.length l <= List.length es)%nat /\
           Forall (fun t => exists e, In e es /\ trade_from today e t) l /\
           List.length l' = List.length (filter has_spy l))
        (backtest_loop key prov today es (tr, sp)).
Proof.
  intros Hes; revert tr sp; induction Hes as [|e es He Hes IH]; intros tr sp; simpl.
  - apply hoare_ret; exists [], []; rewrite !app_nil_r; repeat split; auto.
  - eapply hoare_bind; [apply hoare_process_from; exact He|].
    intros acc [E | (t & ro & E & Ht & Hs)]; subst acc.
    + eapply hoare_weaken; [|apply IH].
      intros acc' (l & l' & E & L & F & C); exists l, l'.
      split; [exact E|]; split; [simpl; lia|]; split; [|exact C].
      eapply Forall_impl; [|exact F]; intros t' (e' & I & T); exists e'; split; [right|]; auto.
    + eapply hoare_weaken; [|apply IH].
      intros acc' (l & l' & E & L & F & C).
      exists (t :: l), (match ro with Some r => [r] | None => [] end ++ l').
      rewrite <- !app_assoc in E; simpl in E; split; [exact E|].
      split; [simpl; lia|]; split.
      * constructor; [exists e; split; [left; reflexivity | exact Ht]|].
        eapply Forall_impl; [|exact F]; intros t' (e' & I & T); exists e'; split; [right|]; auto.
      * simpl; rewrite Hs; destruct ro; simpl; rewrite C; reflexivity.
Qed.

End EngineFacts.

Module EngineFacts2.
Import BacktestEngine BacktestFacts NumFacts PipelineFacts EvalFacts Specs ExtraSpecs RoundFacts.

Lemma summarize_eval today t0 tr' sp w :
  let tr := t0 :: tr' in
  exists s, summarize today tr sp w = (inr s, w) /\ trades s = tr /\
    win_rate s = Some (py_round 1 (inject_Z (Z.of_nat (List.length (filter won tr))) /
                                   inject_Z (Z.of_nat (List.length tr)) * 100)) /\
    avg_return s = Some (py_round 2 (py_sum (map pct_return tr) /
                                     inject_Z (Z.of_nat (List.length tr)))) /\
    (forall pf, profit_factor s = Some pf ->
       (0 < gross_loss_of tr)%Q /\
       pf = py_round 2 (py_sum (map pct_return (filter won tr)) / gross_loss_of tr)) /\
    (alpha_vs_spy s = None <-> sp = []).
Proof.
  intros tr; unfold summarize, tr, bind, ret; cbv beta iota zeta.
  change (List.length (t0 :: tr')) with (S (List.length tr')).
  rewrite (py_div_ok _ _ _ (inject_length_nz _)); cbv beta iota.
  rewrite (py_div_ok _ _ _ (inject_length_nz _)); cbv beta iota.
  match goal with |- context [Qlt_bool 0 ?g] => set (gl := g) in * end.
  destruct (Qlt_bool 0 gl) eqn:G.
  - pose proof (proj1 (Qlt_bool_iff _ _) G) as G'.
    assert (Nz : ~ (gl == 0)%Q) by (intros E; rewrite E in G'; exact (Qlt_irrefl 0 G')).
    rewrite (py_div_ok _ _ _ Nz); cbv beta iota.
    destruct sp as [|s0 sp'].
    + eexists; split; [reflexivity|]; simpl.
      split; [reflexivity|]; split; [reflexivity|]; split; [reflexivity|].
      split; [intros pf E; injection E as <-; split; [exact G' | reflexivity]|].
      split; reflexivity.
    + cbv beta iota; change (List.length (s0 :: sp')) with (S (List.length sp')).
      rewrite (py_div_ok _ _ _ (inject_length_nz _)); cbv beta iota.
      eexists; split; [reflexivity|]; simpl.
      split; [reflexivity|]; split; [reflexivity|]; split; [reflexivity|].
      split; [intros pf E; injection E as <-; split; [exact G' | reflexivity]|].
      split; discriminate.
  - destruct sp as [|s0 sp'].
    + eexists; split; [reflexivity|]; simpl.
      split; [reflexivity|]; split; [reflexivity|]; split; [reflexivity|].
      split; [discriminate|].
      split; reflexivity.
    + cbv beta iota; change (List.length (s0 :: sp')) with (S (List.length sp')).
      rewrite (py_div_ok _ _ _ (inject_length_nz _)); cbv beta iota.
      eexists; split; [reflexivity|]; simpl.
      split; [reflexivity|]; split; [reflexivity|]; split; [reflexivity|].
      split; [discriminate|].
      split; discriminate.
Qed.

End EngineFacts2.

Module EngineFacts3.
Import BacktestEngine BacktestFacts NumFacts PipelineFacts EvalFacts Specs ExtraSpecs
       RoundFacts EngineFacts EngineFacts2.

Lemma run_shape key prov h today w :
  exists tr sp w1 s w2,
    backtest_loop key prov today (filter (is_eligible today) h) ([], []) w = (inr (tr, sp), w1) /\
    summarize today tr sp w1 = (inr s, w2) /\
    run_backtest key prov (Some h) today w = (inr s, mkWorld (sent w2) (Some s)).
Proof.
  assert (Hl := hoare_loop key prov today (filter (is_eligible today) h) [] []
                  (proj2 (Forall_forall _ _) (fun e Hin => proj2 (proj1 (filter_In _ _ _) Hin)))
                  (Forall_nil _) w).
  destruct (backtest_loop key prov today (filter (is_eligible today) h) ([], []) w)
    as [[e|[tr sp]] w1] eqn:E1; simpl in Hl; [contradiction|].
  assert (Hs := hoare_summarize today tr sp w1).
  destruct (summarize today tr sp w1) as [[e|s] w2] eqn:E2; simpl in Hs; [contradiction|].
  exists tr, sp, w1, s, w2; split; [reflexivity|]; split; [exact E2|].
  unfold run_backtest, bind; rewrite E1, E2; reflexivity.
Qed.

Lemma summarize_world today tr sp w : snd (summarize today tr sp w) = w.
Proof.
  destruct tr as [|t tr]; [reflexivity|].
  destruct (summarize_eval today t tr sp w) as (s & E & _); rewrite E; reflexivity.
Qed.

Lemma eligible_all h today :
  Forall (fun e => is_eligible today e = true) (filter (is_eligible today) h).
Proof.
  apply Forall_forall; intros e Hin; apply filter_In in Hin; apply Hin.
Qed.

(** The trades of a run and its accumulated benchmark returns. *)
Lemma run_trades key prov h today w :
  exists s sp,
    fst (run_backtest key prov (Some h) today w) = inr s /\
    results_file (snd (run_backtest key prov (Some h) today w)) = Some s /\
    summarize today (trades s) sp (mkWorld [] None) = (inr s, mkWorld [] None) /\
    (List.length (trades s) <= List.length (filter (is_eligible today) h))%nat /\
    Forall (fun t => exists e, In e (filter (is_eligible today) h) /\ trade_from today e t)
           (trades s) /\
    List.length sp = List.length (filter has_spy (trades s)).
Proof.
  destruct (run_shape key prov h today w) as (tr & sp & w1 & s & w2 & E1 & E2 & E3).
  assert (Hl := hoare_loop_from key prov today _ [] [] (eligible_all h today) w).
  rewrite E1 in Hl; simpl in Hl.
  destruct Hl as (l & l' & El & L & F & C); injection El as -> ->.
  assert (Hs := hoare_summarize today l l' w1); rewrite E2 in Hs; simpl in Hs.
  destruct Hs as (_ & _ & Ht & _).
  exists s, l'; rewrite E3; simpl; split; [reflexivity|]; split; [reflexivity|].
  rewrite Ht; split; [|split; [exact L | split; [exact F | exact C]]].
  rewrite (surjective_pairing (summarize today l l' (mkWorld [] None))).
  rewrite (indep_summarize today l l' (mkWorld [] None) w1), E2, summarize_world; reflexivity.
Qed.

Lemma filter_has_spy_nil l :
  filter has_spy l = [] <-> Forall (fun t => spy_return t = None) l.
Proof.
  induction l as [|t l IH]; simpl; [split; auto|].
  unfold has_spy at 1; destruct (spy_return t) eqn:St.
  - split; [discriminate | intros H; inversion H; congruence].
  - rewrite IH; split; [intros H; constructor; auto | intros H; inversion H; auto].
Qed.

Lemma py_sum_cons x xs : (py_sum (x :: xs) == x + py_sum xs)%Q.
Proof. unfold py_sum; simpl; rewrite !fold_left_Qplus; lra. Qed.

Lemma py_sum_lower xs c :
  (forall y, In y xs -> c <= y)%Q ->
  (inject_Z (Z.of_nat (List.length xs)) * c <= py_sum xs)%Q.
Proof.
  induction xs as [|x xs IH]; intros H.
  - unfold py_sum; cbn [fold_left List.length]; change (inject_Z (Z.of_nat 0)) with 0%Q; lra.
  - rewrite py_sum_cons.
    assert (Hx := H x (or_introl eq_refl)).
    assert (Hr := IH (fun y Hy => H y (or_intror Hy))).
    change (List.length (x :: xs)) with (S (List.length xs)).
    rewrite Nat2Z.inj_succ; unfold Z.succ; rewrite inject_Z_plus; change (inject_Z 1) with 1%Q.
    lra.
Qed.

Lemma py_sum_upper xs c :
  (forall y, In y xs -> y <= c)%Q ->
  (py_sum xs <= inject_Z (Z.of_nat (List.length xs)) * c)%Q.
Proof.
  induction xs as [|x xs IH]; intros H.
  - unfold py_sum; cbn [fold_left List.length]; change (inject_Z (Z.of_nat 0)) with 0%Q; lra.
  - rewrite py_sum_cons.
    assert (Hx := H x (or_introl eq_refl)).
    assert (Hr := IH (fun y Hy => H y (or_intror Hy))).
    change (List.length (x :: xs)) with (S (List.length xs)).
    rewrite Nat2Z.inj_succ; unfold Z.succ; rewrite inject_Z_plus; change (inject_Z 1) with 1%Q.
    lra.
Qed.

Lemma py_sum_nonneg xs : (forall y, In y xs -> 0 <= y)%Q -> (0 <= py_sum xs)%Q.
Proof.
  intros H; assert (L := py_sum_lower xs 0 H); lra.
Qed.

Lemma exists_min {A} (f : A -> Q) a l :
  exists m, In m (a :: l) /\ forall y, In y (a :: l) -> (f m <= f y)%Q.
Proof.
  induction l as [|b l IH].
  - exists a; split; [left; reflexivity|]; intros y [<-|[]]; apply Qle_refl.
  - destruct IH as (m & Hm & Hle).
    destruct (Qlt_le_dec (f b) (f m)) as [Lt|Le].
    + exists b; split; [right; left; reflexivity|].
      intros y [<-|[<-|Hy]]; [apply Qlt_le_weak; eapply Qlt_le_trans; [exact Lt | apply Hle; left; reflexivity]
                            | apply Qle_refl
                            | apply Qlt_le_weak; eapply Qlt_le_trans; [exact Lt | apply Hle; right; exact Hy]].
    + exists m; split; [destruct Hm as [<-|Hm]; [left; reflexivity | right; right; exact Hm]|].
      intros y [<-|[<-|Hy]]; [apply Hle; left; reflexivity | exact Le | apply Hle; right; exact Hy].
Qed.

Lemma exists_max {A} (f : A -> Q) a l :
  exists m, In m (a :: l) /\ forall y, In y (a :: l) -> (f y <= f m)%Q.
Proof.
  destruct (exists_min (fun x => - f x)%Q a l) as (m & Hm & H).
  exists m; split; [exact Hm|]; intros y Hy; specialize (H y Hy); lra.
Qed.

Lemma trade_from_sign today e t :
  trade_from today e t ->
  (won t = true -> 0 <= pct_return t)%Q /\ (won t = false -> pct_return t <= 0)%Q /\
  (py_round 2 (pct_return t) == pct_return t)%Q.
Proof.
  intros (_ & _ & _ & _ & _ & _ & x & Ex & Hw); rewrite Ex.
  split; [|split].
  - intros W; apply Hw in W.
    rewrite <- (py_round_int 2 0); apply py_round_mono; change (inject_Z 0) with 0%Q; lra.
  - intros W; apply py_round_nonpos.
    destruct (Qlt_le_dec 0 x) as [Lt|Le]; [apply Hw in Lt; congruence | exact Le].
  - apply py_round_idem.
Qed.

End EngineFacts3.

Module EngineExtras.
Import BacktestEngine BacktestFacts NumFacts PipelineFacts EvalFacts Specs ExtraSpecs
       RoundFacts EngineFacts EngineFacts2 EngineFacts3.




(** X2: every trade of a run comes from an eligible history entry, with the
    entry's ticker, date and action, an exit date 29 days later and
    before today, the entry price rounded; there are at most as many
    trades as eligible entries. *)
Theorem run_trades_from_history key prov h today :
  hoare (fun s =>
           Forall (fun t => exists e, In e h /\ is_eligible today e = true /\
                                      trade_from today e t) (trades s) /\
           (List.length (trades s) <= List.length (filter (is_eligible today) h))%nat)
        (run_backtest key prov (Some h) today).
Proof.
  intros w; destruct (run_trades key prov h today w) as (s & sp & E & _ & _ & L & F & _).
  rewrite E; split; [|exact L].
  eapply Forall_impl; [|exact F].
  intros t (e & Hin & T); apply filter_In in Hin as [Hin He]; exists e; auto.
Qed.

(** X3: a run sends at most three requests per eligible history entry, each
    the 10-day window of the entry's ticker at its exit date or of SPY at
    its signal or exit date. *)
Theorem run_requests_bound key prov h today w :
  exists added,
    sent (snd (run_backtest key prov (Some h) today w)) = sent w ++ added /\
    (List.length added <= 3 * List.length (filter (is_eligible today) h))%nat /\
    Forall (fun rq => exists e, In e h /\ is_eligible today e = true /\ signal_request e rq) added.
Proof.
  assert (Hs : forall es acc,
             sends (fun rq => exists e, In e es /\ signal_request e rq) (3 * List.length es)
                   (backtest_loop key prov today es acc)).
  { induction es as [|e es IH]; intros acc; simpl.
    - apply sends_ret.
    - eapply sends_bind with (n := 3%nat) (k := (3 * List.length es)%nat).
      + eapply sends_mono; [|apply le_n|apply sends_process].
        intros rq H; exists e; split; [left; reflexivity | exact H].
      + intros acc'; eapply sends_mono; [|apply le_n|apply IH].
        intros rq (e' & I & H); exists e'; split; [right; exact I | exact H].
      + lia. }
  destruct (run_shape key prov h today w) as (tr & sp & w1 & s & w2 & E1 & E2 & E3).
  destruct (Hs (filter (is_eligible today) h) ([], []) w) as (added & Ea & La & Fa & _).
  rewrite E1 in Ea; simpl in Ea.
  exists added; rewrite E3; simpl.
  assert (W := summarize_world today tr sp w1); rewrite E2 in W; simpl in W; subst w2.
  split; [exact Ea|]; split; [exact La|].
  eapply Forall_impl; [|exact Fa].
  intros rq (e & Hin & H); apply filter_In in Hin as [Hin He]; exists e; auto.
Qed.

(** X4: [alphaVsSpy] is null exactly when no trade has a SPY return. *)
Theorem run_alpha_null_iff_no_spy key prov h today :
  hoare (fun s => alpha_vs_spy s = None <-> Forall (fun t => spy_return t = None) (trades s))
        (run_backtest key prov (Some h) today).
Proof.
  intros w; destruct (run_trades key prov h today w) as (s & sp & E & _ & Es & _ & _ & C).
  rewrite E.
  destruct (trades s) as [|t0 tr'] eqn:Tr.
  - assert (Hs := hoare_summarize today [] sp (mkWorld [] None)).
    rewrite Es in Hs; simpl in Hs; destruct Hs as (_ & _ & _ & Hn & _).
    destruct (Hn eq_refl) as (_ & _ & -> & _); split; auto.
  - destruct (summarize_eval today t0 tr' sp (mkWorld [] None)) as (s' & E' & _ & _ & _ & _ & A).
    rewrite Es in E'; injection E' as <-.
    rewrite A, <- filter_has_spy_nil.
    split; intros H.
    + rewrite H in C; destruct (filter has_spy (t0 :: tr')); [reflexivity | discriminate C].
    + rewrite H in C; destruct sp; [reflexivity | discriminate C].
Qed.

(** X5: [winRate] lies between 0 and 100. *)
Theorem run_win_rate_range key prov h today :
  hoare (fun s => forall r, win_rate s = Some r -> (0 <= r <= 100)%Q)
        (run_backtest key prov (Some h) today).
Proof.
  intros w; destruct (run_trades key prov h today w) as (s & sp & E & _ & Es & _ & _ & _).
  rewrite E; intros r Hr.
  destruct (trades s) as [|t0 tr'] eqn:Tr.
  - assert (Hs := hoare_summarize today [] sp (mkWorld [] None)).
    rewrite Es in Hs; simpl in Hs; destruct Hs as (_ & _ & _ & Hn & _).
    destruct (Hn eq_refl) as (Hw & _); congruence.
  - destruct (summarize_eval today t0 tr' sp (mkWorld [] None)) as (s' & E' & _ & W & _).
    rewrite Es in E'; injection E' as <-.
    rewrite W in Hr; injection Hr as <-.
    set (k := List.length (filter won (t0 :: tr'))).
    set (n := List.length (t0 :: tr')).
    assert (Kn : (k <= n)%nat) by apply filter_length_le.
    assert (Np : (0 < inject_Z (Z.of_nat n))%Q).
    { change 0%Q with (inject_Z 0); rewrite <- Zlt_Qlt; unfold n; simpl; lia. }
    assert (K0 : (0 <= inject_Z (Z.of_nat k))%Q).
    { change 0%Q with (inject_Z 0); rewrite <- Zle_Qle; lia. }
    assert (Kle : (inject_Z (Z.of_nat k) <= inject_Z (Z.of_nat n))%Q) by (rewrite <- Zle_Qle; lia).
    assert (D0 : (0 <= inject_Z (Z.of_nat k) / inject_Z (Z.of_nat n))%Q).
    { apply Qle_shift_div_l; [exact Np | lra]. }
    assert (D1 : (inject_Z (Z.of_nat k) / inject_Z (Z.of_nat n) <= 1)%Q).
    { apply Qle_shift_div_r; [exact Np | lra]. }
    assert (P0 : (0 <= inject_Z (Z.of_nat k) / inject_Z (Z.of_nat n) * 100)%Q) by lra.
    assert (P1 : (inject_Z (Z.of_nat k) / inject_Z (Z.of_nat n) * 100 <= 100)%Q) by lra.
    split.
    + rewrite <- (py_round_int 1 0); apply py_round_mono; exact P0.
    + apply Qle_trans with (y := py_round 1 (inject_Z 100)); [apply py_round_mono; exact P1|].
      apply Qle_lteq; right; exact (py_round_int 1 100).
Qed.

(** X6: [profitFactor], when present, is non-negative. *)
Theorem run_profit_factor_nonneg key prov h today :
  hoare (fun s => forall pf, profit_factor s = Some pf -> (0 <= pf)%Q)
        (run_backtest key prov (Some h) today).
Proof.
  intros w; destruct (run_trades key prov h today w) as (s & sp & E & _ & Es & _ & F & _).
  rewrite E; intros pf Hpf.
  destruct (trades s) as [|t0 tr'] eqn:Tr.
  - assert (Hs := hoare_summarize today [] sp (mkWorld [] None)).
    rewrite Es in Hs; simpl in Hs; destruct Hs as (_ & _ & _ & Hn & _).
    destruct (Hn eq_refl) as (_ & Hp & _); congruence.
  - destruct (summarize_eval today t0 tr' sp (mkWorld [] None)) as (s' & E' & _ & _ & _ & P & _).
    rewrite Es in E'; injection E' as <-.
    destruct (P pf Hpf) as (G & ->).
    assert (Gg : (0 <= py_sum (map pct_return (filter won (t0 :: tr'))))%Q).
    { apply py_sum_nonneg; intros y Hy.
      apply in_map_iff in Hy as (t & <- & Ht); apply filter_In in Ht as [Ht Wt].
      rewrite Forall_forall in F; destruct (F t Ht) as (e & _ & T).
      apply (proj1 (trade_from_sign _ _ _ T)), Wt. }
    rewrite <- (py_round_int 2 0); apply py_round_mono; change (inject_Z 0) with 0%Q.
    apply Qle_shift_div_l; [exact G | lra].
Qed.

(** X7: [avgReturn] lies between the smallest and the largest trade
    [pctReturn]. *)
Theorem run_avg_return_within key prov h today :
  hoare (fun s => forall a, avg_return s = Some a ->
           exists t1 t2, In t1 (trades s) /\ In t2 (trades s) /\
                         (pct_return t1 <= a <= pct_return t2)%Q)
        (run_backtest key prov (Some h) today).
Proof.
  intros w; destruct (run_trades key prov h today w) as (s & sp & E & _ & Es & _ & F & _).
  rewrite E; intros a Ha.
  destruct (trades s) as [|t0 tr'] eqn:Tr.
  - assert (Hs := hoare_summarize today [] sp (mkWorld [] None)).
    rewrite Es in Hs; simpl in Hs; destruct Hs as (_ & _ & _ & Hn & _).
    destruct (Hn eq_refl) as (_ & _ & _ & Ha'); congruence.
  - destruct (summarize_eval today t0 tr' sp (mkWorld [] None)) as (s' & E' & _ & _ & A & _).
    rewrite Es in E'; injection E' as <-.
    rewrite A in Ha; injection Ha as <-.
    destruct (exists_min pct_return t0 tr') as (t1 & I1 & H1).
    destruct (exists_max pct_return t0 tr') as (t2 & I2 & H2).
    exists t1, t2; split; [exact I1|]; split; [exact I2|].
    rewrite Forall_forall in F.
    destruct (F t1 I1) as (e1 & _ & T1); destruct (F t2 I2) as (e2 & _ & T2).
    destruct (trade_from_sign _ _ _ T1) as (_ & _ & R1).
    destruct (trade_from_sign _ _ _ T2) as (_ & _ & R2).
    set (n := List.length (t0 :: tr')).
    assert (Np : (0 < inject_Z (Z.of_nat n))%Q).
    { change 0%Q with (inject_Z 0); rewrite <- Zlt_Qlt; unfold n; simpl; lia. }
    assert (Lo := py_sum_lower (map pct_return (t0 :: tr')) (pct_return t1)).
    assert (Hi := py_sum_upper (map pct_return (t0 :: tr')) (pct_return t2)).
    rewrite length_map in Lo, Hi; fold n in Lo, Hi.
    split.
    + rewrite <- R1; apply py_round_mono, Qle_shift_div_l; [exact Np|].
      rewrite Qmult_comm; apply Lo.
      intros y Hy; apply in_map_iff in Hy as (t & <- & Ht); apply H1, Ht.
    + rewrite <- R2; apply py_round_mono, Qle_shift_div_r; [exact Np|].
      rewrite Qmult_comm; apply Hi.
      intros y Hy; apply in_map_iff in Hy as (t & <- & Ht); apply H2, Ht.
Qed.


End EngineExtras.

(** ** Further properties of the dashboard views *)

Module ViewFacts.
Import Dashboard DashboardViews ExtraSpecs.
Local Open Scope string_scope.

Lemma str_app_assoc (a b c : string) : (a ++ b) ++ c = a ++ (b ++ c).
Proof. induction a as [|x a IH]; simpl; [reflexivity | rewrite IH; reflexivity]. Qed.

Lemma replace_char_app old new a b :
  replace_char old new (a ++ b) = replace_char old new a ++ replace_char old new b.
Proof.
  induction a as [|ch a IH]; simpl; [reflexivity|].
  destruct (Ascii.eqb ch old); rewrite IH; [rewrite str_app_assoc|]; reflexivity.
Qed.

Lemma escape_cons ch r :
  replace_char ">" "&gt;" (replace_char "<" "&lt;" (replace_char "&" "&amp;" (String ch r))) =
  replace_char ">" "&gt;" (replace_char "<" "&lt;" (replace_char "&" "&amp;" (String ch EmptyString)))
  ++ replace_char ">" "&gt;" (replace_char "<" "&lt;" (replace_char "&" "&amp;" r)).
Proof.
  change (String ch r) with (String ch EmptyString ++ r).
  rewrite !replace_char_app; reflexivity.
Qed.

Lemma unescape_escape1 ch t :
  html_unescape
    (replace_char ">" "&gt;" (replace_char "<" "&lt;" (replace_char "&" "&amp;" (String ch EmptyString)))
     ++ t) = String ch (html_unescape t).
Proof. destruct ch as [[] [] [] [] [] [] [] []]; reflexivity. Qed.

Lemma contains1_app c a b :
  contains (String c EmptyString) (a ++ b) =
  contains (String c EmptyString) a || contains (String c EmptyString) b.
Proof.
  induction a as [|x a IH]; simpl.
  - reflexivity.
  - rewrite IH, andb_true_r, orb_assoc; reflexivity.
Qed.

Lemma escape1_no_angle ch :
  let e := replace_char ">" "&gt;" (replace_char "<" "&lt;" (replace_char "&" "&amp;" (String ch EmptyString))) in
  contains "<" e = false /\ contains ">" e = false.
Proof. destruct ch as [[] [] [] [] [] [] [] []]; split; reflexivity. Qed.


Lemma escape_contains_no_angle s :
  let e := replace_char ">" "&gt;" (replace_char "<" "&lt;" (replace_char "&" "&amp;" s)) in
  contains "<" e = false /\ contains ">" e = false.
Proof.
  induction s as [|ch r [IH1 IH2]]; cbn zeta in *; [split; reflexivity|].
  rewrite escape_cons, !contains1_app, IH1, IH2.
  destruct (escape1_no_angle ch) as [E1 E2]; cbn zeta in E1, E2; rewrite E1, E2; split; reflexivity.
Qed.

Lemma unescape_escape s :
  html_unescape (replace_char ">" "&gt;" (replace_char "<" "&lt;" (replace_char "&" "&amp;" s))) = s.
Proof.
  induction s as [|ch r IH]; [reflexivity|].
  rewrite escape_cons, unescape_escape1, IH; reflexivity.
Qed.

(** X9: [_colorize_log_line] wraps the right-stripped line in a span whose
    colour is one of four, and the text it writes holds no [<] or [>]:
    decoding the three entities gives back the stripped line. *)
Theorem colorize_log_line_escapes (line : string) :
  exists color escaped,
    colorize_log_line line = "<span style='color:" ++ color ++ "'>" ++ escaped ++ "</span>" /\
    In color [RED; GOLD; PRIMARY; MUTED] /\
    contains "<" escaped = false /\ contains ">" escaped = false /\
    html_unescape escaped = py_rstrip line.
Proof.
  unfold colorize_log_line.
  destruct (escape_contains_no_angle (py_rstrip line)) as [N1 N2]; cbn zeta in N1, N2.
  eexists; eexists; split; [reflexivity|].
  split; [|split; [exact N1|split; [exact N2|apply unescape_escape]]].
  destruct (contains "[ERROR]" (py_rstrip line)); [left; reflexivity|].
  destruct (contains "[WARN]" (py_rstrip line)); [right; left; reflexivity|].
  destruct (contains "[INFO]" (py_rstrip line)); [right; right; left; reflexivity|].
  right; right; right; left; reflexivity.
Qed.


Lemma percent_cons t : contains "%" (String "%" t) = true.
Proof. reflexivity. Qed.

Lemma span_num_split s : s = fst (span_num s) ++ snd (span_num s).
Proof.
  induction s as [|ch r IH]; [reflexivity|]; simpl.
  destruct (is_digit ch || Ascii.eqb ch "."%char); [|reflexivity].
  destruct (span_num r) as [a b]; simpl in *; rewrite IH at 1; reflexivity.
Qed.

Lemma pct_body_at_percent s g : pct_body_at s = Some g -> contains "%" s = true.
Proof.
  unfold pct_body_at; intro H.
  rewrite (span_num_split s).
  destruct (span_num s) as [run rest]; simpl.
  destruct run as [|c run']; [discriminate|].
  destruct rest as [|ch t]; [discriminate|].
  destruct (Ascii.eqb ch "%"%char) eqn:E; [|discriminate].
  apply Ascii.eqb_eq in E; subst ch.
  rewrite contains1_app, percent_cons, orb_true_r; reflexivity.
Qed.

Lemma contains_cons p ch r : contains p r = true -> contains p (String ch r) = true.
Proof. intro H; simpl; rewrite H, orb_true_r; reflexivity. Qed.

Lemma pct_match_at_percent s g : pct_match_at s = Some g -> contains "%" s = true.
Proof.
  unfold pct_match_at; destruct s as [|ch r]; [discriminate|].
  destruct (Ascii.eqb ch "+"%char || Ascii.eqb ch "-"%char).
  - destruct (pct_body_at r) eqn:E.
    + intros _; apply contains_cons; exact (pct_body_at_percent r _ E).
    + apply pct_body_at_percent.
  - apply pct_body_at_percent.
Qed.

Lemma re_search_pct_eq s :
  re_search_pct s =
  match pct_match_at s with
  | Some g => Some g
  | None => match s with EmptyString => None | String _ r => re_search_pct r end
  end.
Proof. destruct s; reflexivity. Qed.

Lemma re_search_pct_percent s g : re_search_pct s = Some g -> contains "%" s = true.
Proof.
  induction s as [|ch r IH]; rewrite re_search_pct_eq.
  - destruct (pct_match_at EmptyString) eqn:E; [intros _; exact (pct_match_at_percent _ _ E)|discriminate].
  - destruct (pct_match_at (String ch r)) eqn:E.
    + intros _; exact (pct_match_at_percent _ _ E).
    + intro H; apply contains_cons; exact (IH H).
Qed.

(** X10: [_pct_float] of a text with no [%] sign is [None]: [re.search]
    finds nothing and [float] is never called. *)
Theorem pct_float_no_percent (raw : string) :
  contains "%" raw = false -> pct_float raw = Some None.
Proof.
  intro H; unfold pct_float.
  destruct (re_search_pct raw) eqn:E; [|reflexivity].
  rewrite (re_search_pct_percent _ _ E) in H; discriminate.
Qed.


Lemma digit_not_punct c :
  is_digit c = true ->
  Ascii.eqb c "+"%char = false /\ Ascii.eqb c "-"%char = false /\
  Ascii.eqb c "."%char = false /\ Ascii.eqb c "%"%char = false.
Proof. destruct c as [[] [] [] [] [] [] [] []]; try discriminate; repeat split. Qed.

Lemma span_num_digits a t :
  all_digits a = true -> span_num (a ++ t) = (a ++ fst (span_num t), snd (span_num t)).
Proof.
  induction a as [|c a IH]; simpl; intro H; [destruct (span_num t); reflexivity|].
  apply andb_prop in H as [Hc Ha].
  rewrite Hc; simpl; rewrite (IH Ha); reflexivity.
Qed.

Lemma take_digits_digits acc n a t :
  all_digits a = true ->
  match t with String ch _ => is_digit ch = false | EmptyString => True end ->
  take_digits acc n (a ++ t) = (decimal_value_acc acc a, (n + String.length a)%nat, t).
Proof.
  revert acc n; induction a as [|c a IH]; intros acc n H Ht; simpl.
  - rewrite Nat.add_0_r; destruct t as [|ch r]; [reflexivity|]; simpl; rewrite Ht; reflexivity.
  - apply andb_prop in H as [Hc Ha]; rewrite Hc, (IH _ _ Ha Ht), Nat.add_succ_r; reflexivity.
Qed.

Lemma str_app_nil a : a ++ EmptyString = a.
Proof. induction a as [|c a IH]; simpl; [reflexivity|rewrite IH; reflexivity]. Qed.

Lemma pct_match_at_unsigned u rest :
  pct_body_at (u ++ "%" ++ rest) = Some u ->
  (match u with String c _ => is_digit c = true | EmptyString => True end) \/
  (exists r, u = String "." r) ->
  pct_match_at (u ++ "%" ++ rest) = Some u.
Proof.
  intros Hb Hu; unfold pct_match_at.
  destruct u as [|c u']; [discriminate|].
  assert (Hc : Ascii.eqb c "+"%char || Ascii.eqb c "-"%char = false).
  { destruct Hu as [Hd | [r Hr]].
    - destruct (digit_not_punct c Hd) as [E1 [E2 _]]; rewrite E1, E2; reflexivity.
    - injection Hr as -> _; reflexivity. }
  cbn [append]; rewrite Hc; cbn [append] in Hb; exact Hb.
Qed.

Lemma pct_search_signed sign u rest :
  In sign [""; "+"; "-"] ->
  pct_body_at (u ++ "%" ++ rest) = Some u ->
  (match u with String c _ => is_digit c = true | EmptyString => True end) \/
  (exists r, u = String "." r) ->
  re_search_pct (sign ++ u ++ "%" ++ rest) = Some (sign ++ u).
Proof.
  intros Hs Hb Hu; rewrite re_search_pct_eq.
  destruct Hs as [<- | [<- | [<- | []]]].
  - change ("" ++ ?x) with x; rewrite (pct_match_at_unsigned _ _ Hb Hu); reflexivity.
  - change ("+" ++ ?x) with (String "+" x); unfold pct_match_at; cbv iota beta.
    change (Ascii.eqb "+" "+" || Ascii.eqb "+" "-") with true; cbv iota; rewrite Hb; reflexivity.
  - change ("-" ++ ?x) with (String "-" x); unfold pct_match_at; cbv iota beta.
    change (Ascii.eqb "-" "+" || Ascii.eqb "-" "-") with true; cbv iota; rewrite Hb; reflexivity.
Qed.

(** X11: [_pct_float] reads a signed decimal percentage anywhere at the start
    of the text: for digit strings [a] and [b], not both empty, and a sign
    [""], ["+"] or ["-"], [sign + a + "." + b + "%"] followed by anything
    gives the value [a.b] with that sign. *)
Theorem pct_float_decimal (sign a b rest : string) :
  In sign [""; "+"; "-"] -> all_digits a = true -> all_digits b = true ->
  a ++ b <> EmptyString ->
  pct_float (sign ++ a ++ "." ++ b ++ "%" ++ rest) =
  Some (Some (let v := (inject_Z (decimal_value a) +
                        inject_Z (decimal_value b) / inject_Z (10 ^ Z.of_nat (String.length b)))%Q in
              if String.eqb sign "-" then (- v)%Q else v)).
Proof.
  intros Hs Ha Hb Hab.
  assert (Hsp : span_num (a ++ "." ++ b ++ "%" ++ rest) = (a ++ "." ++ b, "%" ++ rest)).
  { rewrite (span_num_digits _ _ Ha); simpl; rewrite (span_num_digits _ _ Hb); simpl; rewrite str_app_nil; reflexivity. }
  assert (Hbody : pct_body_at ((a ++ "." ++ b) ++ "%" ++ rest) = Some (a ++ "." ++ b)).
  { rewrite str_app_assoc, str_app_assoc; unfold pct_body_at; rewrite Hsp.
    destruct a; reflexivity. }
  assert (Hu : (match a ++ "." ++ b with String c _ => is_digit c = true | EmptyString => True end) \/
               (exists r, a ++ "." ++ b = String "." r)).
  { destruct a as [|c a']; [right; eexists; reflexivity|left; simpl in Ha |- *].
    apply andb_prop in Ha; apply Ha. }
  unfold pct_float.
  pose proof (pct_search_signed sign _ rest Hs Hbody Hu) as Hre.
  rewrite !str_app_assoc in Hre; rewrite Hre.
  assert (Hfl : forall neg : bool,
    (let '(ip, n1, rest) := take_digits 0 0 (a ++ "." ++ b) in
     let '(fp, n2, rest') :=
       match rest with
       | String ch r => if Ascii.eqb ch "."%char then take_digits 0 0 r else (0%Z, 0%nat, rest)
       | EmptyString => (0%Z, 0%nat, EmptyString)
       end in
     match rest' with
     | EmptyString =>
         if (n1 + n2 =? 0)%nat then None
         else
           let v := (inject_Z ip + inject_Z fp / inject_Z (10 ^ Z.of_nat n2))%Q in
           Some (if neg then (- v)%Q else v)
     | _ => None
     end) =
    Some (let v := (inject_Z (decimal_value a) +
                    inject_Z (decimal_value b) / inject_Z (10 ^ Z.of_nat (String.length b)))%Q in
          if neg then (- v)%Q else v)).
  { intro neg.
    rewrite (take_digits_digits 0 0 a ("." ++ b) Ha eq_refl).
    change ("." ++ b) with (String "." b); cbv iota beta.
    change (Ascii.eqb "." ".") with true; cbv iota.
    rewrite <- (str_app_nil b) at 1.
    rewrite (take_digits_digits 0 0 b EmptyString Hb I).
    cbv iota beta.
    assert (Hn : (0 + String.length a + (0 + String.length b) =? 0)%nat = false).
    { apply Nat.eqb_neq; intro Hz.
      destruct a, b; try discriminate; apply Hab; reflexivity. }
    rewrite Hn; reflexivity. }
  destruct Hs as [<- | [<- | [<- | []]]].
  - destruct a as [|c a'].
    + specialize (Hfl false); unfold py_float; cbn in Hfl |- *; rewrite Hfl; reflexivity.
    + destruct (digit_not_punct c (proj1 (andb_prop _ _ Ha))) as [E1 [E2 _]].
      specialize (Hfl false); unfold py_float; cbn in Hfl |- *; rewrite E1, E2; cbn.
      rewrite Hfl; reflexivity.
  - specialize (Hfl false); unfold py_float; cbn in Hfl |- *; rewrite Hfl; reflexivity.
  - specialize (Hfl true); unfold py_float; cbn in Hfl |- *; rewrite Hfl; reflexivity.
Qed.


(** X12: [_action_badge] writes the action text verbatim into a badge of one
    of four classes, with an icon prefix; the class is [b-gold] exactly when
    the upper-cased action mentions GOLDEN or EXPLOSIVE. *)
Theorem action_badge_shape (action : string) :
  exists cls icon,
    action_badge action = "<span class='badge " ++ cls ++ "'>" ++ icon ++ action ++ "</span>" /\
    In cls ["b-gold"; "b-green"; "b-muted"; "b-red"] /\
    (cls = "b-gold" <->
     contains "GOLDEN" (py_upper action) = true \/ contains "EXPLOSIVE" (py_upper action) = true).
Proof.
  unfold action_badge.
  destruct (contains "GOLDEN" (py_upper action)) eqn:G.
  - exists "b-gold", ("🏆" ++ " "); split; [reflexivity|].
    split; [left; reflexivity|tauto].
  - destruct (contains "EXPLOSIVE" (py_upper action)) eqn:X; simpl orb.
    + exists "b-gold", ("🔥" ++ " "); split; [reflexivity|].
      split; [left; reflexivity|tauto].
    + assert (Hno : forall c, c <> "b-gold" -> (c = "b-gold" <-> false = true \/ false = true)).
      { intros c Hc; split; [intro; contradiction|intros [H|H]; discriminate]. }
      destruct (contains "BUY" (py_upper action)).
      { exists "b-green", "▲ "; split; [reflexivity|].
        split; [right; left; reflexivity|apply Hno; discriminate]. }
      destruct (contains "WATCH" (py_upper action)).
      { exists "b-muted", "👁 "; split; [reflexivity|].
        split; [right; right; left; reflexivity|apply Hno; discriminate]. }
      destruct (contains "SELL" (py_upper action)).
      { exists "b-red", "▼ "; split; [reflexivity|].
        split; [right; right; right; left; reflexivity|apply Hno; discriminate]. }
      exists "b-muted", ""; split; [reflexivity|].
      split; [right; right; left; reflexivity|apply Hno; discriminate].
Qed.


Lemma fold_min_le l x : Forall (fun y => (fold_left Z.min l x <= y)%Z) (x :: l).
Proof.
  revert x; induction l as [|y l IH]; intro x; simpl.
  - constructor; [lia|constructor].
  - specialize (IH (Z.min x y)); inversion IH as [|? ? H1 H2]; subst.
    constructor; [lia|constructor; [lia|exact H2]].
Qed.

Lemma fold_max_ge l x : Forall (fun y => (y <= fold_left Z.max l x)%Z) (x :: l).
Proof.
  revert x; induction l as [|y l IH]; intro x; simpl.
  - constructor; [lia|constructor].
  - specialize (IH (Z.max x y)); inversion IH as [|? ? H1 H2]; subst.
    constructor; [lia|constructor; [lia|exact H2]].
Qed.

Lemma fold_max_in l x : In (fold_left Z.max l x) (x :: l).
Proof.
  revert x; induction l as [|y l IH]; intro x; simpl; [left; reflexivity|].
  destruct (IH (Z.max x y)) as [H|H].
  - rewrite <- H; destruct (Z.max_spec x y) as [[_ ->]|[_ ->]]; auto.
  - right; right; exact H.
Qed.

Lemma latest_rows_nil df : latest_rows df = [] <-> df = [].
Proof.
  split; [|intros ->; reflexivity].
  unfold latest_rows; destruct df as [|r df]; [reflexivity|]; simpl series_max.
  intro H; exfalso; cbv iota in H.
  pose proof (fold_max_in (map h_date df) (h_date r)) as Hm.
  change (h_date r :: map h_date df) with (map h_date (r :: df)) in Hm.
  destruct (proj1 (in_map_iff _ _ _) Hm) as [r' [E Hr']].
  assert (Hin : In r' (filter (fun r0 => Z.eqb (h_date r0) (fold_left Z.max (map h_date df) (h_date r)))
                      (r :: df))).
  { apply filter_In; split; [exact Hr'|apply Z.eqb_eq; exact E]. }
  rewrite H in Hin; exact Hin.
Qed.

(** X13: the score chart's x-axis always shows every latest score with a
    margin of at least 15 on the left and 25 on the right, and reaches
    down to -25 or below; it is only undefined on an empty frame. *)
Theorem score_axis_range_covers (df : list HistRow) :
  match score_axis_range df with
  | Some (x_min, x_max) =>
      (x_min <= -25)%Z /\
      Forall (fun r => (x_min + 15 <= h_score r)%Z /\ (h_score r + 25 <= x_max)%Z) (latest_rows df)
  | None => df = []
  end.
Proof.
  unfold score_axis_range.
  destruct (latest_rows df) as [|r rs] eqn:E.
  - apply latest_rows_nil; exact E.
  - simpl map; unfold series_min, series_max.
    split; [lia|].
    pose proof (fold_min_le (map h_score rs) (h_score r)) as Hmin.
    pose proof (fold_max_ge (map h_score rs) (h_score r)) as Hmax.
    change (h_score r :: map h_score rs) with (map h_score (r :: rs)) in Hmin, Hmax.
    apply Forall_forall; intros x Hx.
    rewrite Forall_forall in Hmin, Hmax.
    specialize (Hmin (h_score x) (in_map _ _ _ Hx)); specialize (Hmax (h_score x) (in_map _ _ _ Hx)).
    lia.
Qed.


Lemma dict_get_in {A} (d : list (string * A)) k def : In (dict_get d k def) (def :: map snd d).
Proof.
  induction d as [|[k' v] d IH]; simpl; [left; reflexivity|].
  destruct (String.eqb k k'); [right; left; reflexivity|].
  destruct IH as [H|H]; [left; exact H|right; right; exact H].
Qed.

Lemma dict_incr_keys d k : incl (map fst (dict_incr d k)) (k :: map fst d).
Proof.
  induction d as [|[k' n] d IH]; simpl; [apply incl_refl|].
  destruct (String.eqb k k'); simpl.
  - intros x [H|H]; [right; left; exact H|right; right; exact H].
  - intros x [H|H]; [right; left; exact H|].
    destruct (IH x H) as [H'|H']; [left; exact H'|right; right; exact H'].
Qed.

Lemma dict_incr_nodup d k : NoDup (map fst d) -> NoDup (map fst (dict_incr d k)).
Proof.
  induction d as [|[k' n] d IH]; simpl; intro H; [constructor; [intros []|constructor]|].
  inversion H as [|? ? Hk Hd]; subst.
  destruct (String.eqb k k') eqn:E; simpl; [exact H|].
  constructor; [|exact (IH Hd)].
  intro Hin; destruct (dict_incr_keys d k k' Hin) as [Hkk|Hkk].
  - subst; rewrite String.eqb_refl in E; discriminate.
  - exact (Hk Hkk).
Qed.

Lemma dict_incr_sum d k : list_sum (map snd (dict_incr d k)) = S (list_sum (map snd d)).
Proof.
  induction d as [|[k' n] d IH]; simpl; [reflexivity|].
  destruct (String.eqb k k'); simpl; [reflexivity|rewrite IH; lia].
Qed.

Lemma dict_incr_pos d k : ~ In 0%nat (map snd d) -> ~ In 0%nat (map snd (dict_incr d k)).
Proof.
  induction d as [|[k' n] d IH]; simpl; intro H; [intros [H'|[]]; discriminate|].
  destruct (String.eqb k k'); simpl.
  - intros [H'|H']; [discriminate|apply H; right; exact H'].
  - intros [H'|H']; [apply H; left; exact H'|apply IH; [tauto|exact H']].
Qed.

Lemma sector_counts_inv (latest : list HistRow) (acc : list (string * nat)) :
  NoDup (map fst acc) -> incl (map fst acc) sector_keys -> ~ In 0%nat (map snd acc) ->
  let c := fold_left (fun acc r => dict_incr acc (dict_get SECTOR_MAP (py_upper (h_ticker r)) "SPY"))
                     latest acc in
  NoDup (map fst c) /\ incl (map fst c) sector_keys /\ ~ In 0%nat (map snd c) /\
  list_sum (map snd c) = (list_sum (map snd acc) + List.length latest)%nat.
Proof.
  revert acc; induction latest as [|r latest IH]; intros acc Hn Hi Hp; cbn zeta;
    cbn [fold_left List.length].
  - repeat split; auto; lia.
  - destruct (IH (dict_incr acc (dict_get SECTOR_MAP (py_upper (h_ticker r)) "SPY")))
      as [H1 [H2 [H3 H4]]].
    + apply dict_incr_nodup; exact Hn.
    + intros x Hx; destruct (dict_incr_keys _ _ x Hx) as [<-|Hx'];
        [apply dict_get_in|exact (Hi x Hx')].
    + apply dict_incr_pos; exact Hp.
    + repeat split; auto; rewrite H4, dict_incr_sum; lia.
Qed.

Lemma sector_labels_known :
  forallb (fun k => existsb (String.eqb (dict_get SECTOR_LABELS k k)) (map snd SECTOR_LABELS))
          sector_keys = true.
Proof. vm_compute; reflexivity. Qed.

Lemma sector_colors_known :
  forallb (fun k => existsb (String.eqb (dict_get SECTOR_COLORS k MUTED)) (map snd SECTOR_COLORS))
          sector_keys = true.
Proof. vm_compute; reflexivity. Qed.

Lemma sector_labels_distinct :
  forallb (fun k1 => forallb (fun k2 =>
             implb (String.eqb (dict_get SECTOR_LABELS k1 k1) (dict_get SECTOR_LABELS k2 k2))
                   (String.eqb k1 k2)) sector_keys) sector_keys = true.
Proof. vm_compute; reflexivity. Qed.

Lemma known_of_forallb (f : string -> string) (vals keys : list string) :
  forallb (fun k => existsb (String.eqb (f k)) vals) keys = true ->
  forall ks, incl ks keys -> Forall (fun l => In l vals) (map f ks).
Proof.
  intros H ks Hks; apply Forall_forall; intros l Hl.
  apply in_map_iff in Hl as [k [<- Hk]].
  rewrite forallb_forall in H; specialize (H k (Hks k Hk)).
  apply existsb_exists in H as [v [Hv Ev]]; apply String.eqb_eq in Ev; rewrite Ev; exact Hv.
Qed.

Lemma nodup_map_on {A B} (f : A -> B) (l : list A) :
  (forall x y, In x l -> In y l -> f x = f y -> x = y) -> NoDup l -> NoDup (map f l).
Proof.
  induction l as [|x l IH]; simpl; intros Hinj Hn; [constructor|].
  inversion Hn as [|? ? Hx Hl]; subst; constructor.
  - intro Hin; apply in_map_iff in Hin as [y [Ey Hy]].
    apply Hx; rewrite (Hinj x y (or_introl eq_refl) (or_intror Hy) (eq_sym Ey)); exact Hy.
  - apply IH; [intros a b Ha Hb; apply Hinj; right; assumption|exact Hl].
Qed.

(** X14: the sector pie of a non-empty frame has one slice per sector: the
    labels are distinct sector names, every colour is a sector colour,
    every count is positive, and the counts add up to the number of rows
    of the latest scan. *)
Theorem sector_pie_slices (df : list HistRow) :
  match sector_pie df with
  | None => df = []
  | Some (labels, values, colors) =>
      List.length labels = List.length values /\ List.length colors = List.length values /\
      list_sum values = List.length (latest_rows df) /\ ~ In 0%nat values /\ NoDup labels /\
      Forall (fun l => In l (map snd SECTOR_LABELS)) labels /\
      Forall (fun c => In c (map snd SECTOR_COLORS)) colors
  end.
Proof.
  unfold sector_pie; destruct df as [|r0 df0]; [reflexivity|].
  set (df := r0 :: df0).
  destruct (sector_counts_inv (latest_rows df) [] (NoDup_nil _) (incl_nil_l _) (fun H => H))
    as [Hn [Hi [Hp Hs]]].
  fold (sector_counts (latest_rows df)) in Hn, Hi, Hp, Hs.
  set (c := sector_counts (latest_rows df)) in *.
  rewrite !length_map.
  split; [reflexivity|split; [reflexivity|split; [exact Hs|split; [exact Hp|split]]]].
  - rewrite <- map_map with (f := fst) (g := fun k => dict_get SECTOR_LABELS k k).
    apply nodup_map_on; [|exact Hn].
    intros x y Hx Hy E.
    pose proof sector_labels_distinct as D; rewrite forallb_forall in D.
    specialize (D x (Hi x Hx)); rewrite forallb_forall in D; specialize (D y (Hi y Hy)).
    rewrite E, String.eqb_refl in D; apply String.eqb_eq; exact D.
  - split.
    + rewrite <- map_map with (f := fst) (g := fun k => dict_get SECTOR_LABELS k k).
      exact (known_of_forallb _ _ _ sector_labels_known _ Hi).
    + rewrite <- map_map with (f := fst) (g := fun k => dict_get SECTOR_COLORS k MUTED).
      exact (known_of_forallb _ _ _ sector_colors_known _ Hi).
Qed.


Lemma fold_qmin_le l x : Forall (fun y => (fold_left Qmin l x <= y)%Q) (x :: l).
Proof.
  revert x; induction l as [|y l IH]; intro x; simpl.
  - constructor; [apply Qle_refl|constructor].
  - specialize (IH (Qmin x y)); inversion IH as [|? ? H1 H2]; subst.
    constructor; [|constructor; [|exact H2]].
    + eapply Qle_trans; [exact H1|apply Q.le_min_l].
    + eapply Qle_trans; [exact H1|apply Q.le_min_r].
Qed.

Lemma fold_qmax_ge l x : Forall (fun y => (y <= fold_left Qmax l x)%Q) (x :: l).
Proof.
  revert x; induction l as [|y l IH]; intro x; simpl.
  - constructor; [apply Qle_refl|constructor].
  - specialize (IH (Qmax x y)); inversion IH as [|? ? H1 H2]; subst.
    constructor; [|constructor; [|exact H2]].
    + eapply Qle_trans; [apply Q.le_max_l|exact H1].
    + eapply Qle_trans; [apply Q.le_max_r|exact H1].
Qed.

Lemma rows_last_30d_nonempty parse_date cutoff perf_rows :
  perf_rows <> [] ->
  rows_last_30d parse_date cutoff perf_rows <> [] /\
  incl (rows_last_30d parse_date cutoff perf_rows) perf_rows.
Proof.
  intro Hne; unfold rows_last_30d.
  destruct (filter _ perf_rows) as [|r rs] eqn:E.
  - split; [exact Hne|apply incl_refl].
  - split; [discriminate|].
    rewrite <- E; intros x Hx; apply filter_In in Hx; apply Hx.
Qed.

(** X15: [_returns_vs_spy] only draws the empty figure for no rows; on some
    rows it never raises: it draws a non-empty selection of the rows, and
    the y-axis range holds every bar and the SPY line. *)
Theorem returns_vs_spy_in_range parse_date (today : Z) (perf_rows : list PerformanceRow)
    (spy_return : option Q) :
  match returns_vs_spy parse_date today perf_rows spy_return with
  | EmptyFigure => perf_rows = []
  | Raised => False
  | Bars rows ys spy y_min y_max =>
      rows <> [] /\ incl rows perf_rows /\ ys = map pct_change rows /\ spy = spy_return /\
      Forall (fun v => (y_min <= v <= y_max)%Q)
             (app ys match spy_return with Some s => [s] | None => [] end)
  end.
Proof.
  unfold returns_vs_spy.
  destruct perf_rows as [|p0 ps]; [reflexivity|].
  destruct (rows_last_30d_nonempty parse_date (today - 30) (p0 :: ps) ltac:(discriminate))
    as [Hne Hincl].
  destruct (rows_last_30d parse_date (today - 30) (p0 :: ps)) as [|r rs]; [contradiction|].
  cbn [map app qmin_list qmax_list option_map].
  set (vs := app (map pct_change rs) match spy_return with Some s => [s] | None => [] end).
  split; [exact Hne|split; [exact Hincl|split; [reflexivity|split; [reflexivity|]]]].
  set (pad := (fold_left Qmax (map Qabs vs) (Qabs (pct_change r)) * (18 # 100))%Q).
  assert (Hpad : (0 <= pad)%Q).
  { unfold pad.
    pose proof (fold_qmax_ge (map Qabs vs) (Qabs (pct_change r))) as H.
    inversion H as [|? ? H0 _]; subst.
    pose proof (Qabs_nonneg (pct_change r)).
    apply Qmult_le_0_compat; [eapply Qle_trans; eassumption|discriminate]. }
  pose proof (fold_qmin_le vs (pct_change r)) as Hmin.
  pose proof (fold_qmax_ge vs (pct_change r)) as Hmax.
  apply Forall_forall; intros v Hv.
  assert (Hv' : In v (pct_change r :: vs)) by exact Hv.
  rewrite Forall_forall in Hmin, Hmax.
  specialize (Hmin v Hv'); specialize (Hmax v Hv').
  split; lra.
Qed.


Lemma py_upper_char_idem c : py_upper_char (py_upper_char c) = py_upper_char c.
Proof. destruct c as [[] [] [] [] [] [] [] []]; reflexivity. Qed.

Lemma py_upper_idem s : py_upper (py_upper s) = py_upper s.
Proof. induction s as [|c s IH]; simpl; [reflexivity|rewrite py_upper_char_idem, IH; reflexivity]. Qed.

(** X16: the match count [main] shows beside the search box is the number
    of rows [_signals_table] lists for the same query. *)
Theorem matched_count_filter (query : string) (rows : list OpportunityRow) :
  matched_count query rows = List.length (signals_filter query rows).
Proof.
  unfold matched_count, signals_filter.
  destruct query as [|c q].
  - simpl String.eqb; cbn [orb].
    induction rows as [|r rows IH]; simpl; [reflexivity|rewrite IH; reflexivity].
  - change (String.eqb (String c q) "") with false; cbn [orb].
    f_equal; apply filter_ext; intro r; rewrite orb_assoc; reflexivity.
Qed.

(** X17: the signals table search is case-insensitive: upper-casing the
    query does not change the rows listed. *)
Theorem signals_filter_case_insensitive (query : string) (rows : list OpportunityRow) :
  signals_filter (py_upper query) rows = signals_filter query rows.
Proof.
  unfold signals_filter; destruct query as [|c q]; [reflexivity|].
  cbn [py_upper].
  rewrite py_upper_char_idem, py_upper_idem; reflexivity.
Qed.


(** X18: [_trigger_workflow] posts nothing without a token; with one it
    posts exactly one dispatch of [main] carrying the token as a bearer
    header, and reports success exactly when GitHub answers 204 (an
    exception of [requests.post] propagates). *)
Theorem trigger_workflow_dispatch (gh_token : option string)
    (post : PostRequest -> option (Z * string)) :
  match gh_token with
  | None => snd (trigger_workflow gh_token post) = [] /\
            exists msg, fst (trigger_workflow gh_token post) = Some (false, msg)
  | Some token =>
      exists rq, snd (trigger_workflow gh_token post) = [rq] /\
        In ("Authorization", "Bearer " ++ token) (p_headers rq) /\ p_ref rq = "main" /\
        match post rq with
        | None => fst (trigger_workflow gh_token post) = None
        | Some (code, _) => exists msg, fst (trigger_workflow gh_token post) = Some (Z.eqb code 204, msg)
        end
  end.
Proof.
  destruct gh_token as [token|].
  - eexists; split; [reflexivity|split; [left; reflexivity|split; [reflexivity|]]].
    unfold trigger_workflow; cbv zeta.
    destruct (post _) as [[code text]|]; [|reflexivity].
    destruct (Z.eqb code 204) eqn:E204; [eexists; reflexivity|].
    destruct (Z.eqb code 401); [eexists; reflexivity|].
    destruct (Z.eqb code 404); eexists; reflexivity.
  - split; [reflexivity|eexists; reflexivity].
Qed.


(** X19: [fetch_spy_return_30d] gives a value exactly when the series has
    at least two non-null closes and the first is not zero; the value is
    the change from the first to the last non-null close, in percent,
    rounded to two decimals. *)
Theorem fetch_spy_return_30d_value (raw : list (option Q)) (v : Q) :
  fetch_spy_return_30d (Some raw) = Some v <->
  exists first mid lst,
    flat_map (fun x => match x with Some c => [c] | None => [] end) raw = first :: app mid [lst] /\
    ~ (first == 0)%Q /\ v = py_round 2 ((lst - first) / first * 100)%Q.
Proof.
  unfold fetch_spy_return_30d.
  set (closes := flat_map _ raw).
  split.
  - destruct closes as [|first tl] eqn:E; [discriminate|].
    destruct tl as [|c tl'] ; [discriminate|].
    cbn [List.length Nat.leb].
    destruct (Qeq_bool first 0) eqn:Z0; [discriminate|].
    intro H; injection H as <-.
    destruct (exists_last (l := c :: tl') ltac:(discriminate)) as [mid [lst Em]].
    exists first, mid, lst; split; [rewrite Em; reflexivity|split].
    + intro Hz; apply Qeq_bool_iff in Hz; rewrite Hz in Z0; discriminate.
    + assert (L : last (first :: c :: tl') 0%Q = lst).
      { rewrite Em; change (first :: app mid [lst]) with (app (first :: mid) [lst]).
        apply last_last. }
      rewrite <- L; reflexivity.
  - intros [first [mid [lst [E [Hz ->]]]]].
    rewrite E; destruct mid as [|m mid]; cbn [app List.length Nat.leb];
      (destruct (Qeq_bool first 0) eqn:Z0; [apply Qeq_bool_iff in Z0; contradiction|]).
    + reflexivity.
    + change (first :: m :: app mid [lst]) with (app (first :: m :: mid) [lst]).
      rewrite last_last.
      replace (Nat.leb 2 (List.length (first :: m :: mid ++ [lst]))) with true; [reflexivity|].
      symmetry; apply Nat.leb_le; simpl; lia.
Qed.


Lemma bot_status_split parse_scan_date now df opp_empty scan_date :
  bot_status parse_scan_date now df opp_empty scan_date =
  if match df with [] => true | _ => false end && opp_empty then ("OFFLINE", "status-offline")
  else status_at now (scan_update parse_scan_date scan_date (series_max (map h_date df))).
Proof. reflexivity. Qed.

Lemma status_rank_le2 st : (status_rank st <= 2)%nat.
Proof.
  unfold status_rank; destruct (String.eqb (fst st) "ACTIVE"); [lia|].
  destruct (String.eqb (fst st) "IDLE"); lia.
Qed.

Lemma scan_update_mono parse_scan_date scan_date a b :
  le_opt a b -> le_opt (scan_update parse_scan_date scan_date a) (scan_update parse_scan_date scan_date b).
Proof.
  intro H; unfold scan_update.
  destruct scan_date as [sd|]; [|exact H].
  destruct (String.eqb sd ""); [exact H|].
  destruct (parse_scan_date sd) as [p|]; [|exact H].
  destruct a as [x|], b as [y|]; simpl in *; try contradiction; lia.
Qed.

Lemma age_antitone now l1 l2 :
  (l1 <= l2)%Z -> (inject_Z (now - l2) / 3600 <= inject_Z (now - l1) / 3600)%Q.
Proof.
  intro H.
  assert (Hq : (inject_Z (now - l2) <= inject_Z (now - l1))%Q) by (rewrite <- Zle_Qle; lia).
  apply Qmult_le_compat_r; [exact Hq|discriminate].
Qed.

Lemma status_at_antitone now a b :
  le_opt a b -> (status_rank (status_at now b) <= status_rank (status_at now a))%nat.
Proof.
  intro H; destruct a as [x|]; [|apply status_rank_le2].
  destruct b as [y|]; [|contradiction]; simpl in H.
  pose proof (age_antitone now x y H) as Ha.
  unfold status_at; cbv zeta.
  set (ax := (inject_Z (now - x) / 3600)%Q) in *.
  set (ay := (inject_Z (now - y) / 3600)%Q) in *.
  unfold Qlt_bool.
  assert (F : forall p q, Qle_bool p q = false -> (q < p)%Q).
  { intros p q Hf; apply Qnot_le_lt; intro Hc; apply Qle_bool_iff in Hc; congruence. }
  destruct (Qle_bool 25 ax) eqn:X1; destruct (Qle_bool 25 ay) eqn:Y1; cbn [negb];
    try (vm_compute; lia).
  - destruct (Qle_bool 168 ax) eqn:X2; destruct (Qle_bool 168 ay) eqn:Y2; cbn [negb];
      try (vm_compute; lia).
    exfalso; apply Qle_bool_iff in Y2; apply F in X2; lra.
  - exfalso; apply Qle_bool_iff in Y1; apply F in X1; lra.
Qed.

Lemma series_max_cons_ge r df :
  exists m, series_max (map h_date (r :: df)) = Some m /\ le_opt (series_max (map h_date df)) (Some m).
Proof.
  simpl series_max; eexists; split; [reflexivity|].
  destruct df as [|r1 df]; simpl; [exact I|].
  pose proof (fold_max_ge (map h_date df) (Z.max (h_date r) (h_date r1))) as H.
  inversion H as [|? ? H0 _]; subst.
  (* the fold from a larger start is larger *)
  clear H H0.
  revert r1; generalize (h_date r) as a; intros a r1.
  generalize (h_date r1) as b; intro b.
  generalize (map h_date df) as l; intro l.
  assert (Mono : forall x y, (x <= y)%Z -> (fold_left Z.max l x <= fold_left Z.max l y)%Z).
  { induction l as [|z l IH]; intros x y Hxy; simpl; [exact Hxy|apply IH; lia]. }
  apply Mono; lia.
Qed.

(** X20: one more history row never makes [_bot_status] staler: the label
    with the row is at least as fresh as without it (ACTIVE before IDLE
    before OFFLINE). *)
Theorem bot_status_new_row (parse_scan_date : string -> option Z) (now : Z) (r : HistRow)
    (df : list HistRow) (opp_empty : bool) (scan_date : option string) :
  (status_rank (bot_status parse_scan_date now (r :: df) opp_empty scan_date) <=
   status_rank (bot_status parse_scan_date now df opp_empty scan_date))%nat.
Proof.
  rewrite !bot_status_split.
  destruct (match df with [] => true | _ => false end && opp_empty); [apply status_rank_le2|].
  cbn [andb].
  destruct (series_max_cons_ge r df) as [m [E H]]; rewrite E.
  apply status_at_antitone, scan_update_mono; exact H.
Qed.

Lemma pct_float_no_percent_witness :
  contains "%" "score 12" = false /\ pct_float "score 12" = Some None.
Proof. split; [reflexivity|apply pct_float_no_percent; reflexivity]. Defined.

Lemma pct_float_decimal_witness :
  (In "-" [""; "+"; "-"] /\ all_digits "12" = true /\ all_digits "5" = true /\
   "12" ++ "5" <> EmptyString) /\
  pct_float ("-" ++ "12" ++ "." ++ "5" ++ "%" ++ " YTD") =
  Some (Some (let v := (inject_Z (decimal_value "12") +
                        inject_Z (decimal_value "5") / inject_Z (10 ^ Z.of_nat (String.length "5")))%Q in
              if String.eqb "-" "-" then (- v)%Q else v)).
Proof.
  split; [split; [right; right; left; reflexivity|split; [reflexivity|split; [reflexivity|discriminate]]]|].
  apply (pct_float_decimal "-" "12" "5" " YTD");
    [right; right; left; reflexivity|reflexivity|reflexivity|discriminate].
Defined.

End ViewFacts.

(** ** Properties of the report table parsers *)

Module TableFacts.
Import Dashboard ExtraSpecs ViewFacts.
Local Open Scope string_scope.

Lemma contains1_cons c x r :
  contains (String c EmptyString) (String x r) = Ascii.eqb c x || contains (String c EmptyString) r.
Proof. simpl; rewrite andb_true_r; reflexivity. Qed.

Lemma lstrip_suffix p s : exists pre, s = pre ++ lstrip_by p s.
Proof.
  induction s as [|ch r [pre IH]]; simpl; [exists EmptyString; reflexivity|].
  destruct (p ch); [exists (String ch pre); simpl; rewrite <- IH; reflexivity|exists EmptyString; reflexivity].
Qed.

Lemma rstrip_prefix p s : exists suf, s = rstrip_by p s ++ suf.
Proof.
  induction s as [|ch r [suf IH]]; simpl; [exists EmptyString; reflexivity|].
  destruct (rstrip_by p r) as [|a b] eqn:E.
  - destruct (p ch); [exists (String ch r); reflexivity|exists r; reflexivity].
  - exists suf; simpl; rewrite IH at 1; reflexivity.
Qed.

Lemma no_char_app_l c a b :
  contains (String c EmptyString) (a ++ b) = false -> contains (String c EmptyString) a = false.
Proof. rewrite contains1_app; intro H; apply orb_false_elim in H; apply H. Qed.

Lemma no_char_app_r c a b :
  contains (String c EmptyString) (a ++ b) = false -> contains (String c EmptyString) b = false.
Proof. rewrite contains1_app; intro H; apply orb_false_elim in H; apply H. Qed.

Lemma no_char_lstrip c p s :
  contains (String c EmptyString) s = false -> contains (String c EmptyString) (lstrip_by p s) = false.
Proof. destruct (lstrip_suffix p s) as [pre E]; rewrite E at 1; apply no_char_app_r. Qed.

Lemma no_char_rstrip c p s :
  contains (String c EmptyString) s = false -> contains (String c EmptyString) (rstrip_by p s) = false.
Proof. destruct (rstrip_prefix p s) as [suf E]; rewrite E at 1; apply no_char_app_l. Qed.

Lemma no_char_strip c s :
  contains (String c EmptyString) s = false -> contains (String c EmptyString) (py_strip s) = false.
Proof. intro H; apply no_char_rstrip, no_char_lstrip, H. Qed.

Lemma rstrip_cons p ch r :
  rstrip_by p (String ch r) =
  match rstrip_by p r with
  | EmptyString => if p ch then EmptyString else String ch EmptyString
  | r' => String ch r'
  end.
Proof. reflexivity. Qed.

Lemma rstrip_idem p s : rstrip_by p (rstrip_by p s) = rstrip_by p s.
Proof.
  induction s as [|ch r IH]; [reflexivity|]; rewrite rstrip_cons.
  destruct (rstrip_by p r) as [|a b] eqn:E.
  - destruct (p ch) eqn:P; [reflexivity|]; rewrite rstrip_cons; simpl; rewrite P; reflexivity.
  - rewrite rstrip_cons, IH; reflexivity.
Qed.

Lemma lstrip_head p s :
  match lstrip_by p s with EmptyString => True | String c _ => p c = false end.
Proof.
  induction s as [|ch r IH]; simpl; [exact I|].
  destruct (p ch) eqn:P; [exact IH|exact P].
Qed.

Lemma rstrip_head p s :
  match s with
  | EmptyString => rstrip_by p s = EmptyString
  | String c _ => rstrip_by p s = EmptyString \/ exists t, rstrip_by p s = String c t
  end.
Proof.
  destruct s as [|ch r]; simpl; [reflexivity|].
  destruct (rstrip_by p r) as [|a b]; [destruct (p ch); [left; reflexivity|right; eexists; reflexivity]|].
  right; eexists; reflexivity.
Qed.

Lemma py_strip_idem s : py_strip (py_strip s) = py_strip s.
Proof.
  unfold py_strip.
  pose proof (lstrip_head is_space s) as Hh.
  pose proof (rstrip_head is_space (lstrip_by is_space s)) as Hr.
  destruct (lstrip_by is_space s) as [|c t]; cbv iota beta in Hr.
  - reflexivity.
  - destruct Hr as [E|[t' E]]; rewrite E; [reflexivity|].
    cbn [lstrip_by]; rewrite Hh; rewrite <- E, rstrip_idem; reflexivity.
Qed.

Lemma filter_no_star s :
  contains "*" (filter_chars (fun ch => negb (Ascii.eqb ch "*"%char)) s) = false.
Proof.
  induction s as [|ch r IH]; [reflexivity|]; simpl filter_chars.
  destruct (Ascii.eqb ch "*"%char) eqn:E; simpl negb; cbv iota; [exact IH|].
  rewrite contains1_cons, IH, orb_false_r, Ascii.eqb_sym; exact E.
Qed.

Lemma filter_chars_no_char c p s :
  contains (String c EmptyString) s = false ->
  contains (String c EmptyString) (filter_chars p s) = false.
Proof.
  induction s as [|ch r IH]; [reflexivity|]; simpl filter_chars.
  rewrite contains1_cons; intro H; apply orb_false_elim in H as [H1 H2].
  destruct (p ch); [rewrite contains1_cons, H1, (IH H2); reflexivity|exact (IH H2)].
Qed.

Lemma split_bar_no_bar s : Forall (fun x => contains "|" x = false) (split_bar s).
Proof.
  induction s as [|ch r IH]; simpl; [constructor; [reflexivity|constructor]|].
  destruct (Ascii.eqb ch "|"%char) eqn:E; [constructor; [reflexivity|exact IH]|].
  destruct (split_bar r) as [|h t]; [constructor; [|constructor]|].
  - rewrite contains1_cons, Ascii.eqb_sym, E; reflexivity.
  - inversion IH as [|? ? Hh Ht]; subst.
    constructor; [|exact Ht].
    rewrite contains1_cons, Ascii.eqb_sym, E, Hh; reflexivity.
Qed.

Lemma row_cells_clean line : Forall clean_cell (row_cells line).
Proof.
  unfold row_cells; apply Forall_map.
  eapply Forall_impl; [|apply split_bar_no_bar].
  intros x Hx; split; [exact (no_char_strip _ _ Hx)|apply py_strip_idem].
Qed.

Lemma nth_clean n (cells : list string) :
  Forall clean_cell cells -> clean_cell (nth n cells EmptyString).
Proof.
  intro H; destruct (Nat.lt_ge_cases n (List.length cells)) as [Hl|Hl].
  - rewrite Forall_forall in H; apply H, nth_In, Hl.
  - rewrite nth_overflow by exact Hl; split; reflexivity.
Qed.

Lemma scan_rows_cells {R} is_header min_cells (make_row : list string -> option R) in_table lines rows :
  scan_rows is_header min_cells make_row in_table lines = Some rows ->
  Forall (fun r => exists cells, Forall clean_cell cells /\ make_row cells = Some r) rows.
Proof.
  revert in_table rows; induction lines as [|raw lines IH]; intros in_table rows H; simpl in H.
  - injection H as <-; constructor.
  - unfold scan_line in H.
    destruct (is_header (py_strip raw)); [exact (IH _ _ H)|].
    destruct (negb in_table); [exact (IH _ _ H)|].
    destruct (is_separator (py_strip raw)); [exact (IH _ _ H)|].
    destruct (negb (startswith_bar (py_strip raw))); [exact (IH _ _ H)|].
    destruct (List.length (row_cells (py_strip raw)) <? min_cells)%nat; [exact (IH _ _ H)|].
    destruct (make_row (row_cells (py_strip raw))) as [row|] eqn:M; [|discriminate].
    destruct (scan_rows is_header min_cells make_row true lines) as [rows'|] eqn:E; [|discriminate].
    injection H as <-; constructor; [|exact (IH _ _ E)].
    exists (row_cells (py_strip raw)); split; [apply row_cells_clean|exact M].
Qed.

(** X21: every row [parse_opportunities] returns has clean cells: no cell
    holds a [|] or surrounding whitespace, and the action holds no [*]. *)
Theorem opportunity_rows_clean (lines : list string) (rows : list OpportunityRow) :
  opportunity_rows lines = Some rows ->
  Forall (fun r => clean_cell (Ticker r) /\ clean_cell (Action r) /\ contains "*" (Action r) = false /\
                   clean_cell (Sector_ETF r) /\ clean_cell (Certainty r) /\
                   clean_cell (EPS_Surprise r) /\ clean_cell (RS_1d r) /\ clean_cell (Stop_Loss r))
         rows.
Proof.
  intro H; apply scan_rows_cells in H.
  eapply Forall_impl; [|exact H].
  intros r [cells [Hc M]]; unfold make_opportunity in M.
  destruct (parse_score (nth 3 cells "")); [|discriminate].
  injection M as <-; cbn [Ticker Action Sector_ETF Certainty EPS_Surprise RS_1d Stop_Loss].
  pose proof (fun n => nth_clean n cells Hc) as N.
  repeat split; try apply N.
  - apply no_char_strip, filter_chars_no_char, (N 2%nat).
  - apply py_strip_idem.
  - apply no_char_strip, filter_no_star.
Qed.

(** X22: every row [parse_performance] returns has a clean ticker, date
    and action: no [|] in them and no surrounding whitespace. *)
Theorem performance_rows_clean (lines : list string) (rows : list PerformanceRow) :
  performance_rows lines = Some rows ->
  Forall (fun r => clean_cell (ticker r) /\ clean_cell (date r) /\ clean_cell (action r)) rows.
Proof.
  intro H; apply scan_rows_cells in H.
  eapply Forall_impl; [|exact H].
  intros r [cells [Hc M]]; unfold make_performance in M.
  destruct (parse_pct (nth 6 cells "")); [|discriminate].
  injection M as <-; cbn [ticker date action].
  repeat split; apply nth_clean; exact Hc.
Qed.

(** X23: the table parsers take rows only from a table opened by a header
    line: lines none of which is a header give no row. *)
Theorem scan_rows_needs_header {R} (is_header : string -> bool) (min_cells : nat)
    (make_row : list string -> option R) (lines : list string) :
  Forall (fun l => is_header (py_strip l) = false) lines ->
  scan_rows is_header min_cells make_row false lines = Some [].
Proof.
  induction lines as [|raw lines IH]; intro H; [reflexivity|].
  inversion H as [|? ? Hh Ht]; subst; simpl.
  unfold scan_line; rewrite Hh; cbn [negb]; exact (IH Ht).
Qed.

Lemma opportunity_rows_clean_witness :
  let rows := [mkOpportunityRow "NVDA" "BUY" 85 "SMH" "High" "+5%" "1.2" "95.0"] in
  opportunity_rows sample_opportunity_lines = Some rows /\
  Forall (fun r => clean_cell (Ticker r) /\ clean_cell (Action r) /\ contains "*" (Action r) = false /\
                   clean_cell (Sector_ETF r) /\ clean_cell (Certainty r) /\
                   clean_cell (EPS_Surprise r) /\ clean_cell (RS_1d r) /\ clean_cell (Stop_Loss r))
         rows.
Proof.
  cbv zeta.
  assert (H : opportunity_rows sample_opportunity_lines =
              Some [mkOpportunityRow "NVDA" "BUY" 85 "SMH" "High" "+5%" "1.2" "95.0"])
    by (vm_compute; reflexivity).
  split; [exact H|apply (opportunity_rows_clean sample_opportunity_lines); exact H].
Defined.

Lemma performance_rows_clean_witness :
  let rows := [mkPerformanceRow "AAPL" "2026-01-02" "BUY" 10%Q true] in
  performance_rows sample_performance_lines = Some rows /\
  Forall (fun r => clean_cell (ticker r) /\ clean_cell (date r) /\ clean_cell (action r)) rows.
Proof.
  cbv zeta.
  assert (H : performance_rows sample_performance_lines =
              Some [mkPerformanceRow "AAPL" "2026-01-02" "BUY" 10%Q true])
    by (vm_compute; reflexivity).
  split; [exact H|apply (performance_rows_clean sample_performance_lines); exact H].
Defined.

Lemma scan_rows_needs_header_witness :
  Forall (fun l => opportunity_header (py_strip l) = false) ["Scan notes"; "| NVDA | SMH | BUY |"] /\
  scan_rows opportunity_header 10 make_opportunity false ["Scan notes"; "| NVDA | SMH | BUY |"] =
  Some [].
Proof.
  assert (H : Forall (fun l => opportunity_header (py_strip l) = false)
                     ["Scan notes"; "| NVDA | SMH | BUY |"])
    by (repeat constructor).
  split; [exact H|apply (scan_rows_needs_header opportunity_header 10 make_opportunity); exact H].
Defined.

End TableFacts.
